(** * Login service: register / login / logout / profile

    A shallow embedding of [src/server.js] (the four API handlers and the
    [users] table created by [initializeDatabase]) and the properties of
    the credential lifecycle that the specification states about them.

    Modelling conventions.
    - A JavaScript string is a [string]; its characters are read as code
      units below 256.  Request fields are strings or absent.
    - The PostgreSQL table is a list of rows in table order plus the
      [SERIAL] sequence, with the constraints of the schema: primary key,
      [UNIQUE] on [username] and on [email], [VARCHAR(n)].  Every statement
      runs atomically; [SELECT] returns the matching rows in table order.
    - [bcrypt.hash] and [bcrypt.compare] are parameters of the handlers;
      what is assumed about them is stated where it is used.
    - A handler runs in a small state-and-exception monad over the store,
      the request's session and a trace of the calls it made to the store
      and to bcrypt.  A store call may fail for reasons outside the table
      (connection lost, pool exhausted): the request's [fault] oracle says
      which of its calls does.
    - Concurrent requests interleave at their [await]s.
    - One clock reading per request stands for [NOW()], [new Date()] and
      [Date.now()].  Console output is not modelled. *)

From Stdlib Require Import ZArith List String Ascii Bool Lia Arith.
Import ListNotations.

Local Open Scope string_scope.
Local Open Scope Z_scope.

(* ================================================================== *)
(** ** JavaScript strings and the e-mail regular expression *)

Module Js.

Definition code (c : ascii) : nat := nat_of_ascii c.

(** Characters with a lowercase counterpart: A-Z and, in Latin-1,
    U+00C0..U+00DE without the multiplication sign U+00D7. *)
Definition is_upper (c : ascii) : bool :=
  let n := code c in
  ((65 <=? n) && (n <=? 90))%nat
  || ((192 <=? n) && (n <=? 222) && negb (n =? 215))%nat.

Definition lower_char (c : ascii) : ascii :=
  if is_upper c then ascii_of_nat (code c + 32) else c.

(** [String.prototype.toLowerCase]. *)
Fixpoint toLowerCase (s : string) : string :=
  match s with
  | EmptyString => EmptyString
  | String c t => String (lower_char c) (toLowerCase t)
  end.

(** The class [\s]: TAB, LF, VT, FF, CR, SPACE and NBSP. *)
Definition is_space (c : ascii) : bool :=
  let n := code c in
  ((9 <=? n) && (n <=? 13))%nat || (n =? 32)%nat || (n =? 160)%nat.

(** Regular expressions, matched by derivatives. *)
Inductive regex : Type :=
| Void
| Eps
| Class (p : ascii -> bool)
| Cat (r1 r2 : regex)
| Alt (r1 r2 : regex)
| Star (r : regex).

Definition Lit (c : ascii) : regex := Class (Ascii.eqb c).
Definition Plus (r : regex) : regex := Cat r (Star r).

Fixpoint nullable (r : regex) : bool :=
  match r with
  | Void => false
  | Eps => true
  | Class _ => false
  | Cat r1 r2 => nullable r1 && nullable r2
  | Alt r1 r2 => nullable r1 || nullable r2
  | Star _ => true
  end.

Fixpoint deriv (c : ascii) (r : regex) : regex :=
  match r with
  | Void => Void
  | Eps => Void
  | Class p => if p c then Eps else Void
  | Cat r1 r2 =>
      if nullable r1
      then Alt (Cat (deriv c r1) r2) (deriv c r2)
      else Cat (deriv c r1) r2
  | Alt r1 r2 => Alt (deriv c r1) (deriv c r2)
  | Star r1 => Cat (deriv c r1) (Star r1)
  end.

(** [RegExp.prototype.test] for a pattern anchored by [^] and [$]. *)
Fixpoint test (r : regex) (s : string) : bool :=
  match s with
  | EmptyString => nullable r
  | String c t => test (deriv c r) t
  end.

(** The class [[^\s@]]. *)
Definition not_space_at (c : ascii) : bool :=
  negb (is_space c || Ascii.eqb c "@").

(** [/^[^\s@]+@[^\s@]+\.[^\s@]+$/] *)
Definition emailRegex : regex :=
  Cat (Plus (Class not_space_at))
      (Cat (Lit "@")
           (Cat (Plus (Class not_space_at))
                (Cat (Lit ".") (Plus (Class not_space_at))))).

(** A request field: [None] is a missing ([undefined] or [null]) field. *)
Definition truthy (v : option string) : bool :=
  match v with
  | Some s => negb (String.eqb s "")
  | None => false
  end.

Definition text (v : option string) : string :=
  match v with
  | Some s => s
  | None => ""
  end.

(** Truthiness of a number-valued session field. *)
Definition truthy_num (v : option Z) : bool :=
  match v with
  | Some n => negb (n =? 0)
  | None => false
  end.

(** [Math.round(ms / 1000)]: nearest integer, halves upwards. *)
Definition round_seconds (ms : Z) : Z := (ms + 500) / 1000.

(** Substring test, for reading what a message mentions. *)
Fixpoint includes (needle hay : string) : bool :=
  String.prefix needle hay
  || match hay with
     | EmptyString => false
     | String _ t => includes needle t
     end.

End Js.

(* ================================================================== *)
(** ** JSON values and responses *)

#[local] Set Warnings "-register-all".

Inductive json : Type :=
| JNull
| JNum (n : Z)
| JStr (s : string)
| JDate (t : Z)
| JObj (fields : list (string * json)).

Record response : Type := reply { status : Z; payload : json }.

Definition json_date (t : option Z) : json :=
  match t with
  | Some v => JDate v
  | None => JNull
  end.

Definition json_num (n : option Z) : json :=
  match n with
  | Some v => JNum v
  | None => JNull
  end.

Definition field (name : string) (j : json) : option json :=
  match j with
  | JObj fs =>
      match find (fun kv => String.eqb (fst kv) name) fs with
      | Some kv => Some (snd kv)
      | None => None
      end
  | _ => None
  end.

(** The [error] message of a response, when it carries one. *)
Definition error_of (r : response) : option string :=
  match field "error" (payload r) with
  | Some (JStr m) => Some m
  | _ => None
  end.

(** [user.<name>] of a response body. *)
Definition user_field (name : string) (r : response) : option json :=
  match field "user" (payload r) with
  | Some u => field name u
  | None => None
  end.

(** A message names one identity field when it mentions that field and
    not the other one. *)
Definition mentions (fld msg : string) : bool :=
  Js.includes (Js.toLowerCase fld) (Js.toLowerCase msg).

Definition names_field (fld : string) (r : response) : bool :=
  match error_of r with
  | Some m =>
      if String.eqb fld "username"
      then mentions "username" m && negb (mentions "email" m)
      else if String.eqb fld "email"
      then mentions "email" m && negb (mentions "username" m)
      else false
  | None => false
  end.

(* ================================================================== *)
(** ** The credential store: table [users] *)

Record user : Type := mkUser {
  id : Z;
  username : string;
  email : string;
  password : string;
  created_at : Z;
  updated_at : Z;
  last_login : option Z;
  is_active : bool
}.

(** The table in table order, and the sequence behind [id SERIAL]. *)
Record db : Type := mkDb {
  users : list user;
  users_id_seq : Z
}.

Definition empty_db : db := mkDb [] 1.

(** A result row: the columns of the table and, for the profile query, the
    computed column [total_users]. *)
Record row : Type := mkRow {
  cols : user;
  total_users : option Z
}.

Definition plain (u : user) : row := mkRow u None.

Inductive exn : Type :=
| PgError (code : string)
| StoreUnavailable
| TypeError.

Definition err_code (e : exn) : option string :=
  match e with
  | PgError c => Some c
  | _ => None
  end.

(** SQL [LOWER]; the database's case mapping is taken to agree with
    JavaScript's on the modelled characters. *)
Definition LOWER (s : string) : string := Js.toLowerCase s.

Fixpoint all_spaces (s : string) : bool :=
  match s with
  | EmptyString => true
  | String c t => Ascii.eqb c " " && all_spaces t
  end.

(** Assignment to a [VARCHAR(n)] column: an over-long value is an error
    unless the excess is all spaces, which is cut off. *)
Definition varchar (n : nat) (s : string) : option string :=
  if (String.length s <=? n)%nat then Some s
  else if all_spaces (substring n (String.length s - n) s)
       then Some (substring 0 n s)
       else None.

(** The statements the handlers send, with their parameters. *)
Inductive sql : Type :=
| SelectUserByUsernameOrEmail (p1 p2 : string)
| InsertUser (p1 p2 p3 : string)
| SelectActiveUserByUsername (p1 : string)
| UpdateLastLogin (p1 : Z)
| SelectProfile (p1 : Z).

(** [SELECT id, username, email FROM users
     WHERE username = $1 OR email = $2] *)
Definition select_by_username_or_email (p1 p2 : string) (d : db) : list user :=
  filter (fun r => String.eqb (username r) p1 || String.eqb (email r) p2)
         (users d).

(** [SELECT ... FROM users
     WHERE LOWER(username) = LOWER($1) AND is_active = true] *)
Definition select_active_by_username (p1 : string) (d : db) : list user :=
  filter (fun r => String.eqb (LOWER (username r)) (LOWER p1) && is_active r)
         (users d).

(** [SELECT ..., (SELECT COUNT( * ) FROM users) as total_users
     FROM users WHERE id = $1 AND is_active = true] *)
Definition select_profile (p1 : Z) (d : db) : list row :=
  map (fun r => mkRow r (Some (Z.of_nat (List.length (users d)))))
      (filter (fun r => (id r =? p1) && is_active r) (users d)).

Definition touch (now : Z) (r : user) : user :=
  mkUser (id r) (username r) (email r) (password r)
         (created_at r) (updated_at r) (Some now) (is_active r).

(** [UPDATE users SET last_login = NOW() WHERE id = $1] *)
Definition update_last_login (now p1 : Z) (d : db) : db :=
  mkDb (map (fun r => if id r =? p1 then touch now r else r) (users d))
       (users_id_seq d).

(** Does a row collide with the new one on the primary key or on one of the
    two [UNIQUE] columns? *)
Definition collides (i : Z) (u e : string) (r : user) : bool :=
  (id r =? i) || String.eqb (username r) u || String.eqb (email r) e.

(** [INSERT INTO users (username, email, password, created_at)
     VALUES ($1, $2, $3, NOW()) RETURNING ...].
    A value that does not fit its column is refused before the sequence
    is read; a row refused for a duplicate has consumed its sequence
    value. *)
Definition insert_user (now : Z) (p1 p2 p3 : string) (d : db)
  : (exn + list row) * db :=
  let i := users_id_seq d in
  let burnt := mkDb (users d) (i + 1) in
  match varchar 50 p1, varchar 100 p2, varchar 255 p3 with
  | Some u, Some e, Some p =>
      if existsb (collides i u e) (users d)
      then (inl (PgError "23505"), burnt)
      else
        let r := mkUser i u e p now now None true in
        (inr [plain r], mkDb (users d ++ [r])%list (i + 1))
  | _, _, _ => (inl (PgError "22001"), d)
  end.

(** One statement against the table. *)
Definition exec (now : Z) (q : sql) (d : db) : (exn + list row) * db :=
  match q with
  | SelectUserByUsernameOrEmail p1 p2 =>
      (inr (map plain (select_by_username_or_email p1 p2 d)), d)
  | InsertUser p1 p2 p3 => insert_user now p1 p2 p3 d
  | SelectActiveUserByUsername p1 =>
      (inr (map plain (select_active_by_username p1 d)), d)
  | UpdateLastLogin p1 => (inr [], update_last_login now p1 d)
  | SelectProfile p1 => (inr (select_profile p1 d), d)
  end.

(** The invariants of the table. *)
Definition lowercase_row (r : user) : Prop :=
  Js.toLowerCase (username r) = username r
  /\ Js.toLowerCase (email r) = email r.

(** All stored usernames and e-mail addresses are lowercase. *)
Definition lowercase_inv (d : db) : Prop := Forall lowercase_row (users d).

(** The sequence is ahead of every key in use. *)
Definition seq_fresh (d : db) : Prop :=
  Forall (fun r => id r < users_id_seq d) (users d).

(** The [UNIQUE] and [PRIMARY KEY] constraints. *)
Definition unique_inv (d : db) : Prop :=
  NoDup (map id (users d))
  /\ NoDup (map username (users d))
  /\ NoDup (map email (users d)).

(* ================================================================== *)
(** ** Requests, sessions and the handler monad *)

(** The parsed request body. *)
Record body : Type := mkBody {
  body_username : option string;
  body_email : option string;
  body_password : option string
}.

(** [req.session]. *)
Record session : Type := mkSession {
  userId : option Z;
  session_username : option string;
  loginTime : option Z
}.

Definition no_session : session := mkSession None None None.

(** What one request gets from outside: the clock, the bcrypt salt drawn
    for it, the configured cost and the failures of its store calls
    (indexed by the number of store calls the request made before). *)
Record env : Type := mkEnv {
  now : Z;
  salt : string;
  BCRYPT_ROUNDS : option Z;
  fault : nat -> bool;
  destroy_fails : bool
}.

Definition no_fault : nat -> bool := fun _ => false.

Inductive event : Type :=
| Query (q : sql)
| Hash (plaintext : string)
| Compare (plaintext hashed : string).

Definition is_query (ev : event) : bool :=
  match ev with
  | Query _ => true
  | _ => false
  end.

Record world : Type := mkWorld {
  store : db;
  sess : session;
  trace : list event
}.

(** A computation of a handler: a value or a thrown exception. *)
Definition M (A : Type) : Type := world -> (exn + A) * world.

Definition ret {A : Type} (a : A) : M A := fun w => (inr a, w).

Definition bind {A B : Type} (m : M A) (k : A -> M B) : M B :=
  fun w =>
    match m w with
    | (inr a, w') => k a w'
    | (inl e, w') => (inl e, w')
    end.

Notation "x <- m ;; k" := (bind m (fun x => k))
  (at level 61, m at next level, right associativity).

Definition throw {A : Type} (e : exn) : M A := fun w => (inl e, w).

(** [try { ... } catch (err) { ... }] around a handler body. *)
Definition try_catch (m : M response) (handler : exn -> response)
  : world -> response * world :=
  fun w =>
    match m w with
    | (inr r, w') => (r, w')
    | (inl e, w') => (handler e, w')
    end.

(** [await db.query(text, params)], giving [result.rows]. *)
Definition db_query (e : env) (q : sql) : M (list row) :=
  fun w =>
    let k := List.length (filter is_query (trace w)) in
    let t := (trace w ++ [Query q])%list in
    if fault e k
    then (inl StoreUnavailable, mkWorld (store w) (sess w) t)
    else
      let '(res, d) := exec (now e) q (store w) in
      (res, mkWorld d (sess w) t).

(** [req.session.userId = ...; req.session.username = ...;
     req.session.loginTime = new Date()] *)
Definition set_session (e : env) (u : user) : M unit :=
  fun w =>
    (inr tt,
     mkWorld (store w)
             (mkSession (Some (id u)) (Some (username u)) (Some (now e)))
             (trace w)).

(* ================================================================== *)
(** ** A reference hasher and sample data, for running the handlers *)

(** A deterministic stand-in for bcrypt: like bcrypt it reads at most the
    first 72 characters of the password. *)
Definition ref_hash (plaintext : string) (rounds : Z) (salt : string) : string :=
  "$2b$" ++ substring 0 72 plaintext.

Definition ref_compare (plaintext hashed : string) : bool :=
  String.eqb hashed ("$2b$" ++ substring 0 72 plaintext).

(** A request served at time [t] by a store that answers every call. *)
Definition clock (t : Z) : env := mkEnv t "salt" None no_fault false.

(** A request served at time [t] whose second store call fails. *)
Definition second_call_fails (t : Z) : env :=
  mkEnv t "salt" None (fun k => Nat.eqb k 1) false.

Definition alice_body : body :=
  mkBody (Some "Alice") (Some "Alice@X.com") (Some "secret1").

Definition alice_again : body :=
  mkBody (Some "ALICE") (Some "other@x.com") (Some "secret2").

Definition alice_row : user :=
  mkUser 1 "alice" "alice@x.com" "$2b$secret1" 1000 1000 None true.

Definition alice_db : db := mkDb [alice_row] 2.

Definition alice_login : body := mkBody (Some "alice") None (Some "secret1").

Definition alice_wrong_password : body :=
  mkBody (Some "alice") None (Some "letmein").

Definition bob_login : body := mkBody (Some "bob") None (Some "hunter22").

Definition alice_session : session := mkSession (Some 1) (Some "alice") (Some 1000).

(* ================================================================== *)
(** ** The handlers of [server.js] *)

Section Server.

(** [bcrypt.hash(data, rounds)] with the salt it draws made explicit, and
    [bcrypt.compare(data, encrypted)]. *)
Variable bcrypt_hash : string -> Z -> string -> string.
Variable bcrypt_compare : string -> string -> bool.

Definition hash (e : env) (plaintext : string) (rounds : Z) : M string :=
  fun w =>
    (inr (bcrypt_hash plaintext rounds (salt e)),
     mkWorld (store w) (sess w) (trace w ++ [Hash plaintext])%list).

Definition compare (plaintext hashed : string) : M bool :=
  fun w =>
    (inr (bcrypt_compare plaintext hashed),
     mkWorld (store w) (sess w) (trace w ++ [Compare plaintext hashed])%list).

Definition error (m : string) : json := JObj [("error", JStr m)].

(** [parseInt(process.env.BCRYPT_ROUNDS) || 12] *)
Definition saltRounds (e : env) : Z :=
  match BCRYPT_ROUNDS e with
  | Some n => if n =? 0 then 12 else n
  | None => 12
  end.

Definition conflictField (existing : user) (name : string) : string :=
  if String.eqb (Js.toLowerCase (username existing)) (Js.toLowerCase name)
  then "username" else "email".

Definition registered (newUser : user) : response :=
  reply 201
    (JObj [("message", JStr "Registration successful");
           ("user", JObj [("id", JNum (id newUser));
                          ("username", JStr (username newUser));
                          ("email", JStr (email newUser));
                          ("created_at", JDate (created_at newUser))])]).

(** The validation cascade that opens the register handler: the response
    of the first [return res.status(400)...] taken, if any. *)
Definition validation (b : body) : option response :=
  if negb (Js.truthy (body_username b)) || negb (Js.truthy (body_email b))
     || negb (Js.truthy (body_password b))
  then Some (reply 400
               (JObj [("error", JStr "All fields are required");
                      ("details",
                       JStr "Username, email, and password must be provided")]))
  else
    let name := Js.text (body_username b) in
    let mail := Js.text (body_email b) in
    let pass := Js.text (body_password b) in
    if ((String.length name <? 3) || (50 <? String.length name))%nat
    then Some (reply 400 (error "Username must be between 3 and 50 characters"))
    else if negb (Js.test Js.emailRegex mail)
    then Some (reply 400 (error "Please provide a valid email address"))
    else if (String.length pass <? 6)%nat
    then Some (reply 400 (error "Password must be at least 6 characters long"))
    else None.

Definition conflict (existing : user) (name : string) : response :=
  reply 400
    (error ("This " ++ conflictField existing name ++ " is already registered")).

(** The insert and what follows it. *)
Definition register_insert (e : env) (name mail hashedPassword : string)
  : M response :=
  result <- db_query e (InsertUser (Js.toLowerCase name) (Js.toLowerCase mail)
                                   hashedPassword) ;;
  match result with
  | newUser :: _ =>
      _ <- set_session e (cols newUser) ;;
      ret (registered (cols newUser))
  | [] => throw TypeError
  end.

(** The [try] block of [POST /api/register]. *)
Definition register_body (e : env) (b : body) : M response :=
  match validation b with
  | Some r => ret r
  | None =>
      let name := Js.text (body_username b) in
      let mail := Js.text (body_email b) in
      let pass := Js.text (body_password b) in
      existingUser <- db_query e (SelectUserByUsernameOrEmail
                                    (Js.toLowerCase name) (Js.toLowerCase mail)) ;;
      match existingUser with
      | existing :: _ => ret (conflict (cols existing) name)
      | [] =>
          hashedPassword <- hash e pass (saltRounds e) ;;
          register_insert e name mail hashedPassword
      end
  end.

(** The [catch] block of [POST /api/register]. *)
Definition register_catch (err : exn) : response :=
  match err_code err with
  | Some c =>
      if String.eqb c "23505"
      then reply 400 (error "Username or email already exists")
      else reply 500 (error "Registration failed due to server error")
  | None => reply 500 (error "Registration failed due to server error")
  end.

(** [POST /api/register] *)
Definition register (e : env) (b : body) : world -> response * world :=
  try_catch (register_body e b) register_catch.

Definition invalid_credentials : response :=
  reply 401 (error "Invalid username or password").

Definition logged_in (u : user) : response :=
  reply 200
    (JObj [("message", JStr "Login successful");
           ("user", JObj [("id", JNum (id u));
                          ("username", JStr (username u));
                          ("email", JStr (email u));
                          ("lastLogin", json_date (last_login u))])]).

(** The [try] block of [POST /api/login]. *)
Definition login_body (e : env) (b : body) : M response :=
  if negb (Js.truthy (body_username b)) || negb (Js.truthy (body_password b))
  then ret (reply 400 (error "Username and password are required"))
  else
    let name := Js.text (body_username b) in
    let pass := Js.text (body_password b) in
    userResult <- db_query e (SelectActiveUserByUsername name) ;;
    match userResult with
    | [] => ret invalid_credentials
    | found :: _ =>
        let u := cols found in
        isValidPassword <- compare pass (password u) ;;
        if negb isValidPassword
        then ret invalid_credentials
        else
          _ <- db_query e (UpdateLastLogin (id u)) ;;
          _ <- set_session e u ;;
          ret (logged_in u)
    end.

Definition login_catch (err : exn) : response :=
  reply 500 (error "Login failed due to server error").

(** [POST /api/login] *)
Definition login (e : env) (b : body) : world -> response * world :=
  try_catch (login_body e b) login_catch.

(** [POST /api/logout] *)
Definition logout (e : env) : world -> response * world :=
  fun w =>
    if destroy_fails e
    then (reply 500 (error "Logout failed"), w)
    else (reply 200 (JObj [("message", JStr "Logged out successfully")]),
          mkWorld (store w) no_session (trace w)).

Definition sessionDuration (e : env) (s : session) : Z :=
  match loginTime s with
  | Some t => Js.round_seconds (now e - t)
  | None => 0
  end.

Definition profile_of (e : env) (s : session) (r : row) : response :=
  let u := cols r in
  reply 200
    (JObj [("user", JObj [("id", JNum (id u));
                          ("username", JStr (username u));
                          ("email", JStr (email u));
                          ("created_at", JDate (created_at u));
                          ("last_login", json_date (last_login u));
                          ("session_duration", JNum (sessionDuration e s))]);
           ("stats", JObj [("total_users", json_num (total_users r))])]).

(** The [try] block of [GET /api/profile]. *)
Definition profile_body (e : env) (uid : Z) : M response :=
  userResult <- db_query e (SelectProfile uid) ;;
  match userResult with
  | [] => ret (reply 404 (error "User account not found"))
  | found :: _ => fun w => (inr (profile_of e (sess w) found), w)
  end.

Definition profile_catch (err : exn) : response :=
  reply 500 (error "Failed to load profile").

(** [GET /api/profile] *)
Definition profile (e : env) : world -> response * world :=
  fun w =>
    if negb (Js.truthy_num (userId (sess w)))
    then (reply 401 (error "Authentication required"), w)
    else
      match userId (sess w) with
      | Some uid => try_catch (profile_body e uid) profile_catch w
      | None => (reply 401 (error "Authentication required"), w)
      end.

(* ------------------------------------------------------------------ *)
(** *** Concurrent registrations

    A request gives up control at each [await]; between two of them it
    runs alone, and each statement is atomic in the store.  A register
    request is therefore cut at its three awaits (the read-check, the
    hash, the insert), and requests interleave at these points over the
    shared table, each with its own session and trace. *)

Inductive reg_pc : Type :=
| AtStart (b : body)
| AwaitHash (name mail pass : string)
| AwaitInsert (name mail hashedPassword : string)
| Finished (r : response).

Definition reg_step (e : env) (pc : reg_pc) : M reg_pc :=
  match pc with
  | AtStart b =>
      match validation b with
      | Some r => ret (Finished r)
      | None =>
          let name := Js.text (body_username b) in
          let mail := Js.text (body_email b) in
          let pass := Js.text (body_password b) in
          existingUser <- db_query e (SelectUserByUsernameOrEmail
                                        (Js.toLowerCase name)
                                        (Js.toLowerCase mail)) ;;
          match existingUser with
          | existing :: _ => ret (Finished (conflict (cols existing) name))
          | [] => ret (AwaitHash name mail pass)
          end
      end
  | AwaitHash name mail pass =>
      hashedPassword <- hash e pass (saltRounds e) ;;
      ret (AwaitInsert name mail hashedPassword)
  | AwaitInsert name mail hashedPassword =>
      r <- register_insert e name mail hashedPassword ;;
      ret (Finished r)
  | Finished r => ret (Finished r)
  end.

(** One step of a request, with the handler's [catch]. *)
Definition reg_run (e : env) (pc : reg_pc) (w : world) : reg_pc * world :=
  match reg_step e pc w with
  | (inr pc', w') => (pc', w')
  | (inl err, w') => (Finished (register_catch err), w')
  end.

Record client : Type := mkClient {
  c_env : env;
  c_pc : reg_pc;
  c_sess : session;
  c_trace : list event
}.

Definition arrive (e : env) (b : body) : client :=
  mkClient e (AtStart b) no_session [].

Definition outcome (c : client) : option response :=
  match c_pc c with
  | Finished r => Some r
  | _ => None
  end.

Definition client_step (d : db) (c : client) : db * client :=
  let '(pc', w) := reg_run (c_env c) (c_pc c) (mkWorld d (c_sess c) (c_trace c)) in
  (store w, mkClient (c_env c) pc' (sess w) (trace w)).

Record system : Type := mkSystem {
  shared : db;
  first : client;
  second : client
}.

(** [true]: the first request runs up to its next await; [false]: the
    second one does. *)
Definition system_step (s : system) (turn : bool) : system :=
  if turn
  then let '(d, c) := client_step (shared s) (first s) in mkSystem d c (second s)
  else let '(d, c) := client_step (shared s) (second s) in mkSystem d (first s) c.

Definition run (schedule : list bool) (s : system) : system :=
  fold_left system_step schedule s.

(** A schedule lets both requests reach their end when each gets its
    three turns. *)
Definition complete (schedule : list bool) : Prop :=
  (3 <= count_occ bool_dec schedule true)%nat
  /\ (3 <= count_occ bool_dec schedule false)%nat.

(** Assumptions on the hasher: a hash verifies against its plaintext, and
    fits the [password] column. *)
Definition hasher_sound : Prop :=
  forall p rounds s, bcrypt_compare p (bcrypt_hash p rounds s) = true.

Definition hasher_fits : Prop :=
  forall p rounds s, (String.length (bcrypt_hash p rounds s) <= 255)%nat.

(** A request arrives with an empty trace. *)
Definition request (d : db) (s : session) : world := mkWorld d s [].

(** The validation rules as the specification lists them, each with the
    error it reports; the specification's reading is that the first rule
    of the list that fails gives the error. *)
Record rule : Type := mkRule {
  fails : body -> bool;
  report : response
}.

Definition presence_rule : rule :=
  mkRule (fun b => negb (Js.truthy (body_username b))
                   || negb (Js.truthy (body_email b))
                   || negb (Js.truthy (body_password b)))
         (reply 400
            (JObj [("error", JStr "All fields are required");
                   ("details",
                    JStr "Username, email, and password must be provided")])).

Definition username_length_rule : rule :=
  mkRule (fun b => negb ((3 <=? String.length (Js.text (body_username b)))
                         && (String.length (Js.text (body_username b)) <=? 50))%nat)
         (reply 400 (error "Username must be between 3 and 50 characters")).

Definition email_shape_rule : rule :=
  mkRule (fun b => negb (Js.test Js.emailRegex (Js.text (body_email b))))
         (reply 400 (error "Please provide a valid email address")).

Definition password_length_rule : rule :=
  mkRule (fun b => negb (6 <=? String.length (Js.text (body_password b)))%nat)
         (reply 400 (error "Password must be at least 6 characters long")).

Definition spec_rules : list rule :=
  [presence_rule; username_length_rule; email_shape_rule; password_length_rule].

Fixpoint first_failing (rs : list rule) (b : body) : option response :=
  match rs with
  | [] => None
  | r :: rest => if fails r b then Some (report r) else first_failing rest b
  end.

(** A regular expression none of whose character classes admits the space
    character, and one that matches no string at all. *)
Fixpoint spaceless_regex (r : Js.regex) : Prop :=
  match r with
  | Js.Class p => p " "%char = false
  | Js.Cat r1 r2 | Js.Alt r1 r2 => spaceless_regex r1 /\ spaceless_regex r2
  | Js.Star r1 => spaceless_regex r1
  | _ => True
  end.

Fixpoint matches_nothing (r : Js.regex) : bool :=
  match r with
  | Js.Void => true
  | Js.Cat r1 r2 => matches_nothing r1 || matches_nothing r2
  | Js.Alt r1 r2 => matches_nothing r1 && matches_nothing r2
  | _ => false
  end.

Fixpoint spaceless (s : string) : bool :=
  match s with
  | EmptyString => true
  | String c t => negb (Ascii.eqb c " ") && spaceless t
  end.

(** The API routes that reach the store or the session. *)
Inductive route : Type :=
| PostRegister (b : body)
| PostLogin (b : body)
| PostLogout
| GetProfile.

Definition serve (e : env) (o : route) : world -> response * world :=
  match o with
  | PostRegister b => register e b
  | PostLogin b => login e b
  | PostLogout => logout e
  | GetProfile => profile e
  end.

(** The tables the service can bring about, starting from the empty one:
    each request arrives with its own session. *)
Inductive reachable : db -> Prop :=
| reachable_empty : reachable empty_db
| reachable_serve (d : db) (e : env) (o : route) (s : session) :
    reachable d -> reachable (store (snd (serve e o (request d s)))).

(** The row an insert stores and the session bound to it. *)
Definition new_row (e : env) (i : Z) (u m p : string) : user :=
  mkUser i u m p (now e) (now e) None true.

Definition new_session (e : env) (u : user) : session :=
  mkSession (Some (id u)) (Some (username u)) (Some (now e)).

Definition store_inv (d : db) : Prop :=
  lowercase_inv d /\ seq_fresh d /\ unique_inv d.

(** A store that answers every call of the request. *)
Definition reliable (e : env) : Prop := forall k, fault e k = false.

(** Awaits a register request still has before it. *)
Definition todo (pc : reg_pc) : nat :=
  match pc with
  | AtStart _ => 3
  | AwaitHash _ _ _ => 2
  | AwaitInsert _ _ _ => 1
  | Finished _ => 0
  end.

Definition username_taken : response :=
  reply 400 (error "This username is already registered").

Definition username_or_email_exists : response :=
  reply 400 (error "Username or email already exists").

(** The states of a request between its awaits. *)
Definition pending (e : env) (b : body) (c : client) : Prop :=
  c_env c = e
  /\ (c_pc c = AtStart b
      \/ c_pc c = AwaitHash (Js.text (body_username b)) (Js.text (body_email b))
                            (Js.text (body_password b))
      \/ c_pc c = AwaitInsert (Js.text (body_username b))
                              (Js.text (body_email b))
                              (bcrypt_hash (Js.text (body_password b))
                                           (saltRounds e) (salt e))).

Definition won (c : client) : Prop :=
  exists r, c_pc c = Finished r /\ status r = 201.

Definition lost (c : client) : Prop :=
  c_pc c = Finished username_taken
  \/ c_pc c = Finished username_or_email_exists.

(** The invariant of two racing registrations of one username over the
    table [d] they started from: either no row was added yet and both are
    on their way, or exactly one row was added, by the request that won,
    and the other is on its way or was turned down. *)
Definition race_inv (eA : env) (bA : body) (eB : env) (bB : body)
    (d : db) (s : system) : Prop :=
  seq_fresh (shared s)
  /\ ((users (shared s) = users d
       /\ pending eA bA (first s) /\ pending eB bB (second s))
      \/ (exists u,
            users (shared s) = (users d ++ [u])%list
            /\ username u = Js.toLowerCase (Js.text (body_username bA))
            /\ ((won (first s) /\ (pending eB bB (second s) \/ lost (second s)))
                \/ (won (second s)
                    /\ (pending eA bA (first s) \/ lost (first s)))))).

(** Two well-formed registrations of one username, up to case, neither of
    which meets a conflicting row in the table [d], on a store that answers
    all their calls. *)
Definition racing (eA : env) (bA : body) (eB : env) (bB : body) (d : db)
  : Prop :=
  reliable eA /\ reliable eB
  /\ validation bA = None /\ validation bB = None
  /\ (String.length (Js.text (body_email bA)) <= 100)%nat
  /\ (String.length (Js.text (body_email bB)) <= 100)%nat
  /\ Js.toLowerCase (Js.text (body_username bA))
     = Js.toLowerCase (Js.text (body_username bB))
  /\ seq_fresh d
  /\ select_by_username_or_email
       (Js.toLowerCase (Js.text (body_username bA)))
       (Js.toLowerCase (Js.text (body_email bA))) d = []
  /\ select_by_username_or_email
       (Js.toLowerCase (Js.text (body_username bB)))
       (Js.toLowerCase (Js.text (body_email bB))) d = [].

(* ================================================================== *)
(** ** Server start-up *)

(** [findAvailablePort(startPort)].  [listen p] is the outcome of binding
    the probe server to port [p]: [Some q] when it listens, [q] being the
    port [server.address()] reports, and [None] on its ['error'] event.
    The search tries each port at most once.  The recursion of the source
    goes on while [startPort < FALLBACK_PORT + 10]; [fuel] counts the
    ports left below that bound.  Binding to a number that is no port
    (negative, or above 65535) throws instead of giving either outcome:
    see [valid_search]. *)
Fixpoint probe_ports (listen : Z -> option Z) (FALLBACK_PORT : Z)
    (fuel : nat) (startPort : Z) : Z :=
  match listen startPort with
  | Some port => port
  | None =>
      if startPort <? FALLBACK_PORT + 10
      then match fuel with
           | S fuel' => probe_ports listen FALLBACK_PORT fuel' (startPort + 1)
           | O => FALLBACK_PORT
           end
      else FALLBACK_PORT
  end.

Definition findAvailablePort (listen : Z -> option Z) (FALLBACK_PORT : Z)
    (startPort : Z) : Z :=
  probe_ports listen FALLBACK_PORT
              (Z.to_nat (FALLBACK_PORT + 10 - startPort)) startPort.

(** A search all of whose probes are on port numbers. *)
Definition valid_search (FALLBACK_PORT startPort : Z) : Prop :=
  0 <= startPort <= 65535 /\ FALLBACK_PORT + 10 <= 65535.

(** The database as [initializeDatabase] finds it: the table [users] may
    not exist yet.  An existing table is taken to have the schema of the
    [CREATE TABLE] statement. *)
Definition create_table_if_not_exists (t : option db) : option db :=
  match t with
  | Some d => Some d
  | None => Some empty_db
  end.

(** [initializeDatabase]: the three statements ([CREATE TABLE IF NOT
    EXISTS], the [CREATE INDEX IF NOT EXISTS] batch, [SELECT COUNT]) inside
    one [try]; any failure is caught and answered [false]. *)
Definition initializeDatabase (e : env) (t : option db) : bool * option db :=
  if fault e 0 then (false, t)
  else
    let t1 := create_table_if_not_exists t in
    if fault e 1 then (false, t1)
    else if fault e 2 then (false, t1)
    else (true, t1).


(* ================================================================== *)
(** ** Reading tables, responses and e-mail addresses *)

(** [cookie.maxAge]: 24 hours, in milliseconds. *)
Definition maxAge : Z := 24 * 60 * 60 * 1000.

(** The world in which the same client's next request arrives, at the
    time of [e2], when the request before it was served at the time of
    [e1] and no other request came in between.  The table is kept and the
    trace starts anew.  The session is kept as long as its cookie lasts:
    the cookie is set anew with every response ([rolling]) and runs out
    [maxAge] later. *)
Definition next (e1 e2 : env) (w : world) : world :=
  request (store w)
          (if now e1 + maxAge <=? now e2 then no_session else sess w).

(** The columns of a row other than [last_login]. *)
Definition fixed_columns (r : user)
  : Z * string * string * string * Z * Z * bool :=
  (id r, username r, email r, password r, created_at r, updated_at r,
   is_active r).

(** Does a JSON value hold the key [k], at any depth? *)
Fixpoint has_key (k : string) (j : json) : bool :=
  match j with
  | JObj fs =>
      (fix any (l : list (string * json)) : bool :=
         match l with
         | [] => false
         | (n, v) :: rest => String.eqb n k || has_key k v || any rest
         end) fs
  | _ => false
  end.

(** The strings a regular expression stands for. *)
Inductive matches : Js.regex -> string -> Prop :=
| matches_eps : matches Js.Eps ""
| matches_class (p : ascii -> bool) (c : ascii) :
    p c = true -> matches (Js.Class p) (String c "")
| matches_cat (r1 r2 : Js.regex) (s1 s2 : string) :
    matches r1 s1 -> matches r2 s2 -> matches (Js.Cat r1 r2) (s1 ++ s2)
| matches_alt_l (r1 r2 : Js.regex) (s : string) :
    matches r1 s -> matches (Js.Alt r1 r2) s
| matches_alt_r (r1 r2 : Js.regex) (s : string) :
    matches r2 s -> matches (Js.Alt r1 r2) s
| matches_star_nil (r : Js.regex) : matches (Js.Star r) ""
| matches_star_app (r : Js.regex) (s1 s2 : string) :
    matches r s1 -> matches (Js.Star r) s2 -> matches (Js.Star r) (s1 ++ s2).

(** A non-empty string of characters other than whitespace and [@]. *)
Fixpoint all_chars (p : ascii -> bool) (s : string) : bool :=
  match s with
  | EmptyString => true
  | String c t => p c && all_chars p t
  end.

Definition address_part (s : string) : Prop :=
  s <> "" /\ all_chars Js.not_space_at s = true.

(** What the service never undoes: keys are positive, and every account
    is active with [updated_at] as at its creation. *)
Definition untouched_row (r : user) : Prop :=
  0 < id r /\ is_active r = true /\ updated_at r = created_at r.

Definition service_inv (d : db) : Prop :=
  0 < users_id_seq d /\ Forall untouched_row (users d).

(** More sample data. *)
Definition every_port_in_use : Z -> option Z := fun _ => None.

Definition bob_inactive_db : db :=
  mkDb [mkUser 1 "bob" "bob@x.com" "$2b$hunter22" 1000 1000 None false] 2.

Definition long_email_body : body :=
  mkBody (Some "carol")
         (Some ("carol@" ++
                "aaaaaaaaaaaaaaaaaaaaaaaaaaaaaaaaaaaaaaaaaaaaaaaaaa" ++
                "aaaaaaaaaaaaaaaaaaaaaaaaaaaaaaaaaaaaaaaaaaaaaaaaaa" ++
                ".example"))
         (Some "secret3").

(* ================================================================== *)
(** ** Where a racing register request stands *)

(** The read-check and the insert a register request sends. *)
Definition read_check (b : body) : event :=
  Query (SelectUserByUsernameOrEmail
           (Js.toLowerCase (Js.text (body_username b)))
           (Js.toLowerCase (Js.text (body_email b)))).

Definition hashed (e : env) (b : body) : string :=
  bcrypt_hash (Js.text (body_password b)) (saltRounds e) (salt e).

Definition insert_of (e : env) (b : body) : event :=
  Query (InsertUser (Js.toLowerCase (Js.text (body_username b)))
                    (Js.toLowerCase (Js.text (body_email b)))
                    (hashed e b)).

(** A request whose read-check found no row, before and after hashing. *)
Definition after_check (e : env) (b : body) : client :=
  mkClient e
           (AwaitHash (Js.text (body_username b)) (Js.text (body_email b))
                      (Js.text (body_password b)))
           no_session [read_check b].

Definition after_hash (e : env) (b : body) : client :=
  mkClient e
           (AwaitInsert (Js.text (body_username b)) (Js.text (body_email b))
                        (hashed e b))
           no_session [read_check b; Hash (Js.text (body_password b))].

Definition checked (e : env) (b : body) (c : client) : Prop :=
  c = after_check e b \/ c = after_hash e b.

(** A request turned down by its read-check: it sent nothing else. *)
Definition turned_down_by_check (e : env) (b : body) : client :=
  mkClient e (Finished username_taken) no_session [read_check b].

(** A request turned down by the store: its insert was sent and refused. *)
Definition turned_down_by_insert (e : env) (b : body) : client :=
  mkClient e (Finished username_or_email_exists) no_session
           [read_check b; Hash (Js.text (body_password b)); insert_of e b].

(** The table [dd] is the table [d] with the winner's row. *)
Definition winner_stored (b : body) (d dd : db) : Prop :=
  exists u, users dd = (users d ++ [u])%list
            /\ username u = Js.toLowerCase (Js.text (body_username b)).

(** The winner [w] stored its row before the other request [l], sent with
    [e] and [b], ran its read-check. *)
Definition winner_first (e : env) (b : body) (d dd : db) (w l : client)
  : Prop :=
  seq_fresh dd /\ winner_stored b d dd /\ won w
  /\ (l = arrive e b \/ l = turned_down_by_check e b).

(** Both read-checks ran before either insert. *)
Definition both_checked (eA : env) (bA : body) (eB : env) (bB : body)
    (d : db) (s : system) : Prop :=
  seq_fresh (shared s)
  /\ ((users (shared s) = users d
       /\ checked eA bA (first s) /\ checked eB bB (second s))
      \/ (winner_stored bA d (shared s) /\ won (first s)
          /\ (checked eB bB (second s)
              \/ second s = turned_down_by_insert eB bB))
      \/ (winner_stored bA d (shared s) /\ won (second s)
          /\ (checked eA bA (first s)
              \/ first s = turned_down_by_insert eA bA))).

(* ================================================================== *)
(** ** Strings and columns *)

Lemma lower_char_idem (c : ascii) :
  Js.lower_char (Js.lower_char c) = Js.lower_char c.
Proof. destruct c as [[] [] [] [] [] [] [] []]; reflexivity. Qed.

Lemma toLowerCase_idem (s : string) :
  Js.toLowerCase (Js.toLowerCase s) = Js.toLowerCase s.
Proof.
  induction s as [|c t IH]; simpl; [reflexivity|].
  now rewrite lower_char_idem, IH.
Qed.

Lemma toLowerCase_length (s : string) :
  String.length (Js.toLowerCase s) = String.length s.
Proof. induction s as [|c t IH]; simpl; congruence. Qed.

Lemma toLowerCase_substring (n m : nat) (s : string) :
  Js.toLowerCase (substring n m s) = substring n m (Js.toLowerCase s).
Proof.
  revert n m; induction s as [|c t IH]; intros [|n] [|m]; simpl;
    try reflexivity; now rewrite IH.
Qed.

Lemma toLowerCase_nonempty (s : string) :
  Js.toLowerCase s = EmptyString -> s = EmptyString.
Proof. destruct s; simpl; [reflexivity | discriminate]. Qed.

Lemma varchar_fits (n : nat) (s : string) :
  (String.length s <= n)%nat -> varchar n s = Some s.
Proof.
  intro H; unfold varchar.
  now apply Nat.leb_le in H; rewrite H.
Qed.

Lemma varchar_lower (n : nat) (s s' : string) :
  varchar n (Js.toLowerCase s) = Some s' -> Js.toLowerCase s' = s'.
Proof.
  unfold varchar; intro H.
  destruct (_ <=? n)%nat.
  - inversion H; apply toLowerCase_idem.
  - destruct (all_spaces _); [|discriminate].
    inversion H. now rewrite toLowerCase_substring, toLowerCase_idem.
Qed.

(* ================================================================== *)
(** ** Running the monad *)

Lemma db_query_run (e : env) (q : sql) (d : db) (s : session) (t : list event) :
  db_query e q (mkWorld d s t)
  = if fault e (List.length (filter is_query t))
    then (inl StoreUnavailable, mkWorld d s (t ++ [Query q]))
    else (fst (exec (now e) q d),
          mkWorld (snd (exec (now e) q d)) s (t ++ [Query q])).
Proof.
  unfold db_query; simpl.
  destruct (fault e _); [reflexivity|].
  now destruct (exec (now e) q d).
Qed.

Ltac handler :=
  unfold register, login, profile, logout, try_catch, register_body,
    login_body, profile_body, register_insert, request, bind, ret, throw,
    hash, compare, set_session;
  repeat (rewrite db_query_run; simpl).

(* ================================================================== *)
(** ** Validation *)

Lemma validation_refines_rules (b : body) :
  validation b = first_failing spec_rules b.
Proof.
  unfold validation, spec_rules, first_failing, fails, report, presence_rule,
    username_length_rule, email_shape_rule, password_length_rule.
  destruct (_ || _ || _); [reflexivity|].
  set (n := String.length (Js.text (body_username b))).
  replace ((n <? 3) || (50 <? n))%nat%bool with (negb ((3 <=? n) && (n <=? 50)))%nat.
  2:{ rewrite negb_andb, !Nat.leb_antisym, !negb_involutive. reflexivity. }
  destruct (negb (_ && _)); [reflexivity|].
  destruct (negb (Js.test _ _)); [reflexivity|].
  set (m := String.length (Js.text (body_password b))).
  rewrite (Nat.leb_antisym m 6), negb_involutive.
  reflexivity.
Qed.

Lemma validation_status (b : body) (r : response) :
  validation b = Some r -> status r = 400.
Proof.
  unfold validation; intro H.
  repeat match type of H with
         | (if ?c then _ else _) = _ => destruct c
         end; inversion H; reflexivity.
Qed.

Lemma register_first_failing (e : env) (b : body) (d : db) (s : session) :
  match first_failing spec_rules b with
  | Some r =>
      register e b (request d s) = (r, request d s) /\ status r = 400
  | None =>
      exists rest,
        trace (snd (register e b (request d s)))
        = Query (SelectUserByUsernameOrEmail
                   (Js.toLowerCase (Js.text (body_username b)))
                   (Js.toLowerCase (Js.text (body_email b)))) :: rest
  end.
Proof.
  rewrite <- validation_refines_rules.
  destruct (validation b) as [r|] eqn:V.
  - split; [|eapply validation_status; eassumption].
    unfold register, try_catch, register_body. now rewrite V.
  - handler. rewrite V. handler.
    destruct (fault e 0); simpl; [eexists; reflexivity|].
    destruct (map plain _) as [|x xs]; simpl.
    + rewrite db_query_run; simpl.
      destruct (fault e 1); simpl; [eexists; reflexivity|].
      destruct (fst (insert_user _ _ _ _ _)) as [err|[|nu rs]]; simpl;
        eexists; reflexivity.
    + eexists; reflexivity.
Qed.

(** C6.  The register handler reports the error of the first rule that
    fails, in the order presence, username length, e-mail shape, password
    length, with status 400 and without touching the store, the session or
    the trace; when no rule fails its first action is the read-check on the
    store.  Spelt out: a failing rule decides the response whatever the
    rules after it would say. *)
Theorem register_reports_first_failing_rule
    (e : env) (b : body) (d : db) (s : session) :
  match first_failing spec_rules b with
  | Some r =>
      register e b (request d s) = (r, request d s) /\ status r = 400
  | None =>
      exists rest,
        trace (snd (register e b (request d s)))
        = Query (SelectUserByUsernameOrEmail
                   (Js.toLowerCase (Js.text (body_username b)))
                   (Js.toLowerCase (Js.text (body_email b)))) :: rest
  end
  /\ (fails presence_rule b = true ->
      register e b (request d s) = (report presence_rule, request d s))
  /\ (fails presence_rule b = false ->
      fails username_length_rule b = true ->
      register e b (request d s) = (report username_length_rule, request d s))
  /\ (fails presence_rule b = false ->
      fails username_length_rule b = false ->
      fails email_shape_rule b = true ->
      register e b (request d s) = (report email_shape_rule, request d s))
  /\ (fails presence_rule b = false ->
      fails username_length_rule b = false ->
      fails email_shape_rule b = false ->
      fails password_length_rule b = true ->
      register e b (request d s) = (report password_length_rule, request d s)).
Proof.
  pose proof (register_first_failing e b d s) as H.
  split; [exact H|].
  unfold spec_rules, first_failing in H.
  repeat split; intros; 
    repeat match goal with
           | E : fails _ b = _ |- _ => rewrite E in H; clear E
           end; apply H.
Qed.

(* ================================================================== *)
(** ** An accepted e-mail address holds no space *)

Lemma matches_nothing_not_nullable (r : Js.regex) :
  matches_nothing r = true -> Js.nullable r = false.
Proof.
  induction r; simpl; intro H; try discriminate; try reflexivity.
  - apply orb_true_iff in H. destruct H as [H|H].
    + now rewrite IHr1.
    + rewrite IHr2 by assumption. apply andb_false_r.
  - apply andb_true_iff in H. destruct H as [H1 H2].
    now rewrite IHr1, IHr2.
Qed.

Lemma matches_nothing_deriv (c : ascii) (r : Js.regex) :
  matches_nothing r = true -> matches_nothing (Js.deriv c r) = true.
Proof.
  induction r; simpl; intro H; try discriminate; try reflexivity.
  - apply orb_true_iff in H. destruct H as [H|H].
    + rewrite (matches_nothing_not_nullable r1 H). simpl.
      now rewrite IHr1.
    + destruct (Js.nullable r1); simpl; rewrite H, ?IHr2 by assumption;
        now rewrite ?orb_true_r.
  - apply andb_true_iff in H. destruct H as [H1 H2].
    now rewrite IHr1, IHr2.
Qed.

Lemma matches_nothing_test (s : string) (r : Js.regex) :
  matches_nothing r = true -> Js.test r s = false.
Proof.
  revert r; induction s as [|c t IH]; intros r H; simpl.
  - now apply matches_nothing_not_nullable.
  - apply IH. now apply matches_nothing_deriv.
Qed.

Lemma spaceless_deriv (c : ascii) (r : Js.regex) :
  spaceless_regex r -> spaceless_regex (Js.deriv c r).
Proof.
  induction r; simpl; intro H; auto.
  - destruct (p c); exact I.
  - destruct H as [H1 H2]. destruct (Js.nullable r1); simpl; auto.
  - destruct H as [H1 H2]. auto.
Qed.

Lemma spaceless_deriv_space (r : Js.regex) :
  spaceless_regex r -> matches_nothing (Js.deriv " " r) = true.
Proof.
  induction r; simpl; intro H; auto.
  - now rewrite H.
  - destruct H as [H1 H2]. destruct (Js.nullable r1); simpl;
      rewrite IHr1 by assumption; auto.
  - destruct H as [H1 H2]. now rewrite IHr1, IHr2.
  - now rewrite IHr.
Qed.

Lemma test_spaceless (s : string) (r : Js.regex) :
  spaceless_regex r -> Js.test r s = true -> spaceless s = true.
Proof.
  revert r; induction s as [|c t IH]; intros r C T; simpl; [reflexivity|].
  simpl in T. destruct (Ascii.eqb c " ") eqn:E.
  - apply Ascii.eqb_eq in E. subst c.
    rewrite (matches_nothing_test t _ (spaceless_deriv_space r C)) in T.
    discriminate.
  - simpl. apply (IH (Js.deriv c r)); [now apply spaceless_deriv|assumption].
Qed.

Lemma email_spaceless (s : string) :
  Js.test Js.emailRegex s = true -> spaceless s = true.
Proof. apply test_spaceless. simpl. repeat split; reflexivity. Qed.

Lemma lower_char_space (c : ascii) :
  Ascii.eqb (Js.lower_char c) " " = Ascii.eqb c " ".
Proof. destruct c as [[] [] [] [] [] [] [] []]; reflexivity. Qed.

Lemma toLowerCase_spaceless (s : string) :
  spaceless (Js.toLowerCase s) = spaceless s.
Proof.
  induction s as [|c t IH]; simpl; [reflexivity|].
  now rewrite lower_char_space, IH.
Qed.

Lemma spaceless_excess (s : string) (n : nat) :
  spaceless s = true -> (n < String.length s)%nat ->
  all_spaces (substring n (String.length s - n) s) = false.
Proof.
  revert n; induction s as [|c t IH]; intros n S L; simpl in L; [lia|].
  simpl in S. apply andb_true_iff in S. destruct S as [Sc St].
  destruct n as [|n].
  - simpl. apply negb_true_iff in Sc. now rewrite Sc.
  - simpl. apply IH; [assumption|lia].
Qed.

(** A value without spaces is stored as it is or refused. *)
Lemma varchar_spaceless (n : nat) (s s' : string) :
  spaceless s = true -> varchar n s = Some s' -> s' = s.
Proof.
  intros S. unfold varchar.
  destruct (String.length s <=? n)%nat eqn:L; [congruence|].
  apply Nat.leb_gt in L. now rewrite (spaceless_excess s n S L).
Qed.

(* ================================================================== *)
(** ** Login *)

Lemma login_missing_fields (e : env) (b : body) (w : world) :
  Js.truthy (body_username b) = false \/ Js.truthy (body_password b) = false ->
  login e b w = (reply 400 (error "Username and password are required"), w).
Proof.
  intro H.
  assert (E : negb (Js.truthy (body_username b))
              || negb (Js.truthy (body_password b)) = true).
  { destruct H as [H|H]; rewrite H; simpl; auto using orb_true_r. }
  unfold login, try_catch, login_body. now rewrite E.
Qed.

(** C8.  A login whose username or password is missing or empty is
    answered 400 at once: the world is returned as it was, so the trace
    holds no store query and no password comparison. *)
Theorem login_missing_fields_rejected_before_lookup
    (e : env) (b : body) (d : db) (s : session) :
  Js.truthy (body_username b) = false \/ Js.truthy (body_password b) = false ->
  login e b (request d s)
  = (reply 400 (error "Username and password are required"), request d s)
  /\ trace (snd (login e b (request d s))) = [].
Proof.
  intro H. rewrite (login_missing_fields e b (request d s) H).
  split; reflexivity.
Qed.

Lemma login_lookup (e : env) (b : body) (d : db) (s : session) :
  Js.truthy (body_username b) = true ->
  Js.truthy (body_password b) = true ->
  fault e 0 = false ->
  login e b (request d s)
  = let name := Js.text (body_username b) in
    let pass := Js.text (body_password b) in
    let t1 := [Query (SelectActiveUserByUsername name)] in
    match select_active_by_username name d with
    | [] => (invalid_credentials, mkWorld d s t1)
    | u :: _ =>
        let t2 := (t1 ++ [Compare pass (password u)])%list in
        if bcrypt_compare pass (password u)
        then
          let t3 := (t2 ++ [Query (UpdateLastLogin (id u))])%list in
          if fault e 1
          then (login_catch StoreUnavailable, mkWorld d s t3)
          else (logged_in u,
                mkWorld (update_last_login (now e) (id u) d)
                        (mkSession (Some (id u)) (Some (username u))
                                   (Some (now e)))
                        t3)
        else (invalid_credentials, mkWorld d s t2)
    end.
Proof.
  intros Hu Hp Hf. unfold login, try_catch, login_body.
  rewrite Hu, Hp; simpl. handler. rewrite Hf; simpl.
  destruct (select_active_by_username _ d) as [|u rest]; simpl; [reflexivity|].
  destruct (bcrypt_compare _ _); simpl; [|reflexivity].
  rewrite db_query_run; simpl.
  destruct (fault e 1); reflexivity.
Qed.

(** C2.  A login for a username that matches no active account and a login
    for an active account with a wrong password get the same response, 401
    with the same payload, and neither changes the store or the session. *)
Theorem login_failures_indistinguishable
    (e1 e2 : env) (b1 b2 : body) (d1 d2 : db) (s1 s2 : session)
    (u : user) (others : list user) :
  Js.truthy (body_username b1) = true ->
  Js.truthy (body_password b1) = true ->
  Js.truthy (body_username b2) = true ->
  Js.truthy (body_password b2) = true ->
  fault e1 0 = false ->
  fault e2 0 = false ->
  select_active_by_username (Js.text (body_username b1)) d1 = [] ->
  select_active_by_username (Js.text (body_username b2)) d2 = u :: others ->
  bcrypt_compare (Js.text (body_password b2)) (password u) = false ->
  fst (login e1 b1 (request d1 s1)) = fst (login e2 b2 (request d2 s2))
  /\ fst (login e1 b1 (request d1 s1))
     = reply 401 (error "Invalid username or password")
  /\ store (snd (login e1 b1 (request d1 s1))) = d1
  /\ sess (snd (login e1 b1 (request d1 s1))) = s1
  /\ store (snd (login e2 b2 (request d2 s2))) = d2
  /\ sess (snd (login e2 b2 (request d2 s2))) = s2.
Proof.
  intros U1 P1 U2 P2 F1 F2 None1 Found2 Wrong.
  rewrite (login_lookup e1 b1 d1 s1 U1 P1 F1).
  rewrite (login_lookup e2 b2 d2 s2 U2 P2 F2).
  simpl. rewrite None1, Found2, Wrong. simpl.
  repeat split; reflexivity.
Qed.

(** C3 (as the code has it).  Once the password is verified, the login
    depends on the last-login update: when the update fails the handler's
    catch answers 500, the session is not established and the store is
    unchanged; when it succeeds the login answers 200 with the account and
    the session is bound to it. *)
Theorem login_depends_on_last_login_update
    (e : env) (b : body) (d : db) (s : session)
    (u : user) (others : list user) :
  Js.truthy (body_username b) = true ->
  Js.truthy (body_password b) = true ->
  fault e 0 = false ->
  select_active_by_username (Js.text (body_username b)) d = u :: others ->
  bcrypt_compare (Js.text (body_password b)) (password u) = true ->
  (fault e 1 = true ->
     fst (login e b (request d s))
     = reply 500 (error "Login failed due to server error")
     /\ store (snd (login e b (request d s))) = d
     /\ sess (snd (login e b (request d s))) = s)
  /\ (fault e 1 = false ->
     fst (login e b (request d s)) = logged_in u
     /\ status (fst (login e b (request d s))) = 200
     /\ store (snd (login e b (request d s)))
        = update_last_login (now e) (id u) d
     /\ userId (sess (snd (login e b (request d s)))) = Some (id u)).
Proof.
  intros U P F Found Ok.
  rewrite (login_lookup e b d s U P F). simpl. rewrite Found, Ok.
  split; intro F1; rewrite F1; simpl; repeat split; reflexivity.
Qed.

(** C10.  The [lastLogin] of a successful login's response is the
    [last_login] of the account's row as the lookup read it, before this
    login's update; after the login the stored value is the time of this
    login. *)
Theorem login_reports_previous_last_login
    (e : env) (b : body) (d : db) (s : session) (r : response) (w : world) :
  login e b (request d s) = (r, w) ->
  status r = 200 ->
  exists (u : user) (others : list user),
    select_active_by_username (Js.text (body_username b)) d = u :: others
    /\ In u (users d)
    /\ user_field "id" r = Some (JNum (id u))
    /\ user_field "lastLogin" r = Some (json_date (last_login u))
    /\ (forall u', In u' (users (store w)) -> id u' = id u ->
          last_login u' = Some (now e)).
Proof.
  intros Run Ok.
  destruct (Js.truthy (body_username b)) eqn:U.
  2:{ rewrite (login_missing_fields e b _ (or_introl U)) in Run.
      inversion Run; subst. discriminate. }
  destruct (Js.truthy (body_password b)) eqn:P.
  2:{ rewrite (login_missing_fields e b _ (or_intror P)) in Run.
      inversion Run; subst. discriminate. }
  destruct (fault e 0) eqn:F.
  { revert Run. unfold login, try_catch, login_body.
    rewrite U, P; simpl. handler. rewrite F. simpl.
    intro Run; inversion Run; subst. discriminate. }
  rewrite (login_lookup e b d s U P F) in Run. simpl in Run.
  destruct (select_active_by_username _ d) as [|u others] eqn:Found.
  { inversion Run; subst. discriminate. }
  destruct (bcrypt_compare _ _).
  2:{ inversion Run; subst. discriminate. }
  destruct (fault e 1).
  { inversion Run; subst. discriminate. }
  inversion Run; subst; clear Run.
  exists u, others. repeat split; try reflexivity.
  - assert (I : In u (select_active_by_username (Js.text (body_username b)) d))
      by (rewrite Found; left; reflexivity).
    unfold select_active_by_username in I. apply filter_In in I. tauto.
  - simpl. intros u' I E. apply in_map_iff in I.
    destruct I as [r0 [R _]]. destruct (id r0 =? id u) eqn:Q.
    + subst u'. reflexivity.
    + subst u'. apply Z.eqb_neq in Q. contradiction.
Qed.

(* ================================================================== *)
(** ** Profile *)

Lemma filter_unique {A K : Type} (key : A -> K) (p : A -> bool)
    (l : list A) (u : A) :
  NoDup (map key l) -> In u l -> p u = true ->
  (forall r, p r = true -> key r = key u) ->
  filter p l = [u].
Proof.
  intros ND I Pu Same. induction l as [|a l IH]; simpl in *; [contradiction|].
  inversion ND as [|? ? NI ND']; subst.
  destruct I as [->|I].
  - rewrite Pu. f_equal.
    assert (N : forall r, In r l -> p r = false).
    { intros r Ir. destruct (p r) eqn:Pr; [|reflexivity].
      exfalso. apply NI. rewrite <- (Same r Pr). now apply in_map. }
    clear -N. induction l as [|x l IH]; simpl; [reflexivity|].
    rewrite (N x (or_introl eq_refl)). apply IH. intros; apply N. now right.
  - destruct (p a) eqn:Pa.
    + exfalso. apply NI. rewrite (Same a Pa). now apply in_map.
    + now apply IH.
Qed.

Lemma filter_none {A : Type} (p : A -> bool) (l : list A) :
  (forall r, In r l -> p r = false) -> filter p l = [].
Proof.
  induction l as [|a l IH]; simpl; intro N; [reflexivity|].
  rewrite (N a (or_introl eq_refl)). apply IH. intros; apply N. now right.
Qed.

(** C7.  The profile handler answers 401 without a session user; with one,
    404 when no row has that id or the row is inactive; otherwise 200
    with a body that holds the account (its id, username, e-mail,
    creation time and last login, with the age of the session in seconds)
    and, under [stats], [total_users]: the number of all rows of the
    table, active or not. *)
Theorem profile_lookup (e : env) (d : db) (s : session) :
  (Js.truthy_num (userId s) = false ->
     profile e (request d s)
     = (reply 401 (JObj [("error", JStr "Authentication required")]),
        request d s))
  /\ (forall uid : Z,
        userId s = Some uid -> uid <> 0 -> fault e 0 = false ->
        ((forall r, In r (users d) -> id r = uid -> is_active r = false) ->
           fst (profile e (request d s))
           = reply 404 (JObj [("error", JStr "User account not found")]))
        /\ (forall u : user,
              NoDup (map id (users d)) ->
              In u (users d) -> id u = uid -> is_active u = true ->
              fst (profile e (request d s))
              = reply 200
                  (JObj [("user",
                          JObj [("id", JNum (id u));
                                ("username", JStr (username u));
                                ("email", JStr (email u));
                                ("created_at", JDate (created_at u));
                                ("last_login",
                                 match last_login u with
                                 | Some t => JDate t
                                 | None => JNull
                                 end);
                                ("session_duration",
                                 JNum match loginTime s with
                                      | Some t => (now e - t + 500) / 1000
                                      | None => 0
                                      end)]);
                         ("stats",
                          JObj [("total_users",
                                 JNum (Z.of_nat (List.length (users d))))])])
              /\ status (fst (profile e (request d s))) = 200
              /\ store (snd (profile e (request d s))) = d)).
Proof.
  split.
  - intro H. unfold profile, request; simpl. now rewrite H.
  - intros uid Hs Hnz Hf.
    assert (T : Js.truthy_num (userId s) = true).
    { rewrite Hs; simpl. now apply negb_true_iff, Z.eqb_neq. }
    split.
    + intro Inactive. unfold profile, request. cbn [sess].
      rewrite T, Hs. handler. rewrite Hf; simpl.
      unfold select_profile. rewrite filter_none; [reflexivity|].
      intros r I. destruct (id r =? uid) eqn:Q; [|reflexivity].
      apply Z.eqb_eq in Q. now rewrite (Inactive r I Q).
    + intros u ND I Hid Act. unfold profile, request. cbn [sess].
      rewrite T, Hs. handler. rewrite Hf; simpl.
      unfold select_profile.
      rewrite (filter_unique id _ (users d) u ND I).
      * simpl. repeat split; reflexivity.
      * rewrite Hid, Z.eqb_refl, Act. reflexivity.
      * intros r Pr. apply andb_true_iff in Pr. destruct Pr as [Q _].
        apply Z.eqb_eq in Q. congruence.
Qed.

(* ================================================================== *)
(** ** Register *)

Lemma validation_passed (b : body) :
  validation b = None ->
  Js.truthy (body_username b) = true
  /\ Js.truthy (body_email b) = true
  /\ Js.truthy (body_password b) = true
  /\ (3 <= String.length (Js.text (body_username b)) <= 50)%nat
  /\ Js.test Js.emailRegex (Js.text (body_email b)) = true
  /\ (6 <= String.length (Js.text (body_password b)))%nat.
Proof.
  unfold validation.
  destruct (Js.truthy (body_username b)); [|discriminate].
  destruct (Js.truthy (body_email b)); [|discriminate].
  destruct (Js.truthy (body_password b)); [|discriminate].
  simpl.
  destruct (_ <? 3)%nat eqn:A; [discriminate|].
  destruct (50 <? _)%nat eqn:B; [discriminate|].
  destruct (Js.test _ _); [|discriminate].
  destruct (_ <? 6)%nat eqn:C; [discriminate|].
  simpl. intros _.
  apply Nat.ltb_ge in A, B, C. repeat split; assumption.
Qed.

Lemma register_run (e : env) (b : body) (d : db) (s : session) :
  validation b = None ->
  fault e 0 = false ->
  register e b (request d s)
  = let name := Js.text (body_username b) in
    let mail := Js.text (body_email b) in
    let pass := Js.text (body_password b) in
    let q1 := Query (SelectUserByUsernameOrEmail
                       (Js.toLowerCase name) (Js.toLowerCase mail)) in
    match select_by_username_or_email
            (Js.toLowerCase name) (Js.toLowerCase mail) d with
    | existing :: _ => (conflict existing name, mkWorld d s [q1])
    | [] =>
        let h := bcrypt_hash pass (saltRounds e) (salt e) in
        let t := [q1; Hash pass;
                  Query (InsertUser (Js.toLowerCase name)
                                    (Js.toLowerCase mail) h)] in
        if fault e 1
        then (register_catch StoreUnavailable, mkWorld d s t)
        else
          match insert_user (now e) (Js.toLowerCase name)
                            (Js.toLowerCase mail) h d with
          | (inr (newUser :: _), d') =>
              (registered (cols newUser),
               mkWorld d' (new_session e (cols newUser)) t)
          | (inr [], d') => (register_catch TypeError, mkWorld d' s t)
          | (inl err, d') => (register_catch err, mkWorld d' s t)
          end
    end.
Proof.
  intros V F. unfold register, try_catch, register_body. rewrite V.
  handler. rewrite F; simpl.
  destruct (select_by_username_or_email _ _ d) as [|x xs]; simpl;
    [|reflexivity].
  rewrite db_query_run; simpl.
  destruct (fault e 1); simpl; [reflexivity|].
  destruct (insert_user _ _ _ _ d) as [[err|[|nu rows]] d']; reflexivity.
Qed.

Lemma insert_user_stored (t : Z) (u m p : string) (d d' : db) (rows : list row) :
  insert_user t u m p d = (inr rows, d') ->
  exists u' m' p',
    varchar 50 u = Some u' /\ varchar 100 m = Some m'
    /\ varchar 255 p = Some p'
    /\ existsb (collides (users_id_seq d) u' m') (users d) = false
    /\ rows = [plain (mkUser (users_id_seq d) u' m' p' t t None true)]
    /\ d' = mkDb (users d ++ [mkUser (users_id_seq d) u' m' p' t t None true])
                 (users_id_seq d + 1).
Proof.
  unfold insert_user.
  destruct (varchar 50 u) as [u'|]; [|discriminate].
  destruct (varchar 100 m) as [m'|]; [|discriminate].
  destruct (varchar 255 p) as [p'|]; [|discriminate].
  destruct (existsb _ _) eqn:X; [discriminate|].
  intro H; inversion H; subst. exists u', m', p'. repeat split; auto.
Qed.

Lemma insert_user_users (t : Z) (u m p : string) (d : db) :
  users (snd (insert_user t u m p d)) = users d
  \/ exists u' m' p',
       varchar 50 u = Some u' /\ varchar 100 m = Some m'
       /\ existsb (collides (users_id_seq d) u' m') (users d) = false
       /\ users (snd (insert_user t u m p d))
          = (users d ++ [mkUser (users_id_seq d) u' m' p' t t None true])%list.
Proof.
  unfold insert_user.
  destruct (varchar 50 u) as [u'|]; [|left; reflexivity].
  destruct (varchar 100 m) as [m'|]; [|left; reflexivity].
  destruct (varchar 255 p) as [p'|]; [|left; reflexivity].
  destruct (existsb _ _) eqn:X; [left; reflexivity|].
  right. exists u', m', p'. repeat split; auto.
Qed.

Lemma insert_user_seq (t : Z) (u m p : string) (d : db) :
  users_id_seq d <= users_id_seq (snd (insert_user t u m p d))
                 <= users_id_seq d + 1.
Proof.
  unfold insert_user.
  destruct (varchar 50 u); [|simpl; lia].
  destruct (varchar 100 m); [|simpl; lia].
  destruct (varchar 255 p); [|simpl; lia].
  destruct (existsb _ _); simpl; lia.
Qed.

(** What a 201 from register tells. *)
Lemma register_created (e : env) (b : body) (d : db) (s : session)
    (r : response) (w : world) :
  register e b (request d s) = (r, w) ->
  status r = 201 ->
  validation b = None
  /\ select_by_username_or_email
       (Js.toLowerCase (Js.text (body_username b)))
       (Js.toLowerCase (Js.text (body_email b))) d = []
  /\ exists p,
       let u := new_row e (users_id_seq d)
                        (Js.toLowerCase (Js.text (body_username b)))
                        (Js.toLowerCase (Js.text (body_email b))) p in
       (String.length (Js.text (body_email b)) <= 100)%nat
       /\ varchar 255 (bcrypt_hash (Js.text (body_password b))
                                   (saltRounds e) (salt e)) = Some p
       /\ r = registered u
       /\ store w = mkDb (users d ++ [u]) (users_id_seq d + 1)
       /\ sess w = new_session e u.
Proof.
  intros Run Ok.
  destruct (validation b) as [r0|] eqn:V.
  { unfold register, try_catch, register_body in Run. rewrite V in Run.
    inversion Run; subst. apply validation_status in V. congruence. }
  destruct (fault e 0) eqn:F.
  { unfold register, try_catch, register_body in Run. rewrite V in Run.
    revert Run. handler. rewrite F; simpl.
    intro Run; inversion Run; subst; discriminate. }
  rewrite (register_run e b d s V F) in Run. simpl in Run.
  destruct (select_by_username_or_email _ _ d) as [|x xs] eqn:Sel.
  2:{ inversion Run; subst; discriminate. }
  split; [reflexivity|]. split; [reflexivity|].
  destruct (fault e 1).
  { inversion Run; subst; discriminate. }
  destruct (insert_user _ _ _ _ d) as [[err|[|nu rows]] d'] eqn:Ins.
  - inversion Run; subst. unfold register_catch in Ok.
    destruct (err_code err) as [c|]; [destruct (String.eqb c _)|];
      discriminate.
  - inversion Run; subst; discriminate.
  - apply insert_user_stored in Ins.
    destruct Ins as (u' & m' & p' & Vu & Vm & Vp & _ & Rows & D').
    apply validation_passed in V. destruct V as (_ & _ & _ & [_ L] & Em & _).
    rewrite varchar_fits in Vu by (rewrite toLowerCase_length; exact L).
    assert (Sp : spaceless (Js.toLowerCase (Js.text (body_email b))) = true)
      by (rewrite toLowerCase_spaceless; now apply email_spaceless).
    pose proof (varchar_spaceless _ _ _ Sp Vm) as Em'. subst m'.
    assert (Len : (String.length (Js.text (body_email b)) <= 100)%nat).
    { unfold varchar in Vm. rewrite toLowerCase_length in Vm.
      destruct (_ <=? 100)%nat eqn:Q; [now apply Nat.leb_le in Q|].
      apply Nat.leb_gt in Q.
      rewrite <- (toLowerCase_length (Js.text (body_email b))) in Vm at 1.
      rewrite spaceless_excess in Vm;
        [discriminate|assumption|now rewrite toLowerCase_length]. }
    inversion Vu; subst u'. inversion Rows; subst nu rows.
    inversion Run; subst r w. exists p'. simpl.
    repeat split; try reflexivity; assumption.
Qed.

(* ================================================================== *)
(** ** The invariants of the table *)

Lemma varchar_keeps_lower (n : nat) (s s' : string) :
  Js.toLowerCase s = s -> varchar n s = Some s' -> Js.toLowerCase s' = s'.
Proof. intros L V. rewrite <- L in V. eapply varchar_lower; eassumption. Qed.

Lemma existsb_false {A : Type} (p : A -> bool) (l : list A) :
  existsb p l = false -> forall r, In r l -> p r = false.
Proof.
  intros X r I. destruct (p r) eqn:P; [|reflexivity].
  rewrite <- X. symmetry. apply existsb_exists. now exists r.
Qed.

Lemma filter_nil {A : Type} (p : A -> bool) (l : list A) :
  filter p l = [] -> forall r, In r l -> p r = false.
Proof.
  intros E r I. destruct (p r) eqn:P; [|reflexivity].
  assert (In r (filter p l)) by (apply filter_In; auto).
  rewrite E in H. contradiction.
Qed.

Lemma NoDup_map_snoc {A K : Type} (key : A -> K) (l : list A) (a : A) :
  NoDup (map key l) -> (forall r, In r l -> key r <> key a) ->
  NoDup (map key (l ++ [a])).
Proof.
  intros ND Fresh. induction l as [|x l IH]; simpl.
  - constructor; [intros []|constructor].
  - inversion ND as [|? ? NI ND']; subst. constructor.
    + rewrite map_app, in_app_iff. intros [I|[E|[]]]; [contradiction|].
      apply (Fresh x); [now left|auto].
    + apply IH; [assumption|]. intros r I. apply Fresh. now right.
Qed.

Lemma insert_user_inv (t : Z) (u m p : string) (d : db) :
  Js.toLowerCase u = u -> Js.toLowerCase m = m ->
  store_inv d -> store_inv (snd (insert_user t u m p d)).
Proof.
  intros Lu Lm (Low & Fresh & Ids & Names & Mails).
  unfold store_inv, lowercase_inv, seq_fresh, unique_inv in *.
  unfold insert_user.
  assert (Burnt : Forall (fun r => id r < users_id_seq d + 1) (users d)).
  { eapply Forall_impl; [|exact Fresh]. simpl; intros; lia. }
  destruct (varchar 50 u) as [u'|] eqn:Vu; [|simpl; tauto].
  destruct (varchar 100 m) as [m'|] eqn:Vm; [|simpl; tauto].
  destruct (varchar 255 p) as [p'|]; [|simpl; tauto].
  destruct (existsb _ _) eqn:X; [simpl; tauto|]. simpl.
  pose proof (existsb_false _ _ X) as C.
  assert (C3 : forall r, In r (users d) ->
             id r <> users_id_seq d /\ username r <> u' /\ email r <> m').
  { intros r I. specialize (C r I). unfold collides in C.
    apply orb_false_iff in C. destruct C as [C Cm].
    apply orb_false_iff in C. destruct C as [Ci Cu].
    apply Z.eqb_neq in Ci. apply String.eqb_neq in Cu, Cm. auto. }
  repeat split.
  - apply Forall_app. split; [assumption|]. constructor; [|constructor].
    split; simpl;
      [eapply (varchar_keeps_lower 50 u)|eapply (varchar_keeps_lower 100 m)];
      eassumption.
  - apply Forall_app. split; [assumption|]. constructor; [simpl; lia|constructor].
  - apply NoDup_map_snoc; [assumption|]. intros r I. apply (C3 r I).
  - apply NoDup_map_snoc; [assumption|]. intros r I. apply (C3 r I).
  - apply NoDup_map_snoc; [assumption|]. intros r I. apply (C3 r I).
Qed.

Lemma update_last_login_inv (t i : Z) (d : db) :
  store_inv d -> store_inv (update_last_login t i d).
Proof.
  intros (Low & Fresh & Ids & Names & Mails).
  unfold store_inv, lowercase_inv, seq_fresh, unique_inv, update_last_login
    in *; simpl.
  assert (K : forall (K : Type) (f : user -> K),
             (forall r, f (touch t r) = f r) ->
             map f (map (fun r => if id r =? i then touch t r else r) (users d))
             = map f (users d)).
  { intros K f H. rewrite map_map. apply map_ext. intro r.
    destruct (id r =? i); [apply H|reflexivity]. }
  rewrite !K by reflexivity.
  repeat split; try assumption.
  - apply Forall_map. eapply Forall_impl; [|exact Low].
    intros r L. destruct (id r =? i); exact L.
  - apply Forall_map. eapply Forall_impl; [|exact Fresh].
    intros r L. simpl in L. destruct (id r =? i); exact L.
Qed.

Lemma register_store (e : env) (b : body) (d : db) (s : session) :
  store (snd (register e b (request d s))) = d
  \/ exists h,
       store (snd (register e b (request d s)))
       = snd (insert_user (now e)
                (Js.toLowerCase (Js.text (body_username b)))
                (Js.toLowerCase (Js.text (body_email b))) h d).
Proof.
  destruct (validation b) as [r0|] eqn:V.
  { left. unfold register, try_catch, register_body. now rewrite V. }
  destruct (fault e 0) eqn:F.
  { left. unfold register, try_catch, register_body. rewrite V.
    handler. now rewrite F. }
  rewrite (register_run e b d s V F). simpl.
  destruct (select_by_username_or_email _ _ d); [|left; reflexivity].
  destruct (fault e 1); [left; reflexivity|].
  right.
  exists (bcrypt_hash (Js.text (body_password b)) (saltRounds e) (salt e)).
  destruct (insert_user _ _ _ _ d) as [[err|[|nu rows]] d']; reflexivity.
Qed.

Lemma login_store (e : env) (b : body) (d : db) (s : session) :
  store (snd (login e b (request d s))) = d
  \/ exists i, store (snd (login e b (request d s)))
               = update_last_login (now e) i d.
Proof.
  destruct (Js.truthy (body_username b)) eqn:U.
  2:{ left. now rewrite (login_missing_fields e b _ (or_introl U)). }
  destruct (Js.truthy (body_password b)) eqn:P.
  2:{ left. now rewrite (login_missing_fields e b _ (or_intror P)). }
  destruct (fault e 0) eqn:F.
  { left. unfold login, try_catch, login_body. rewrite U, P; simpl.
    handler. now rewrite F. }
  rewrite (login_lookup e b d s U P F). simpl.
  destruct (select_active_by_username _ d) as [|u rest]; [left; reflexivity|].
  destruct (bcrypt_compare _ _); [|left; reflexivity].
  destruct (fault e 1); [left; reflexivity|].
  right. eexists. reflexivity.
Qed.

Lemma profile_store (e : env) (d : db) (s : session) :
  store (snd (profile e (request d s))) = d.
Proof.
  unfold profile, request; cbn [sess].
  destruct (Js.truthy_num (userId s)); [|reflexivity]. simpl.
  destruct (userId s) as [uid|]; [|reflexivity].
  handler. destruct (fault e 0); simpl; [reflexivity|].
  destruct (select_profile uid d); reflexivity.
Qed.

Lemma logout_store (e : env) (d : db) (s : session) :
  store (snd (logout e (request d s))) = d.
Proof. unfold logout. destruct (destroy_fails e); reflexivity. Qed.

(** Every route keeps the invariants of the table. *)
Lemma serve_inv (e : env) (o : route) (d : db) (s : session) :
  store_inv d -> store_inv (store (snd (serve e o (request d s)))).
Proof.
  intro I. destruct o as [b|b| |]; simpl.
  - destruct (register_store e b d s) as [E|[h E]]; rewrite E; [assumption|].
    apply insert_user_inv; auto using toLowerCase_idem.
  - destruct (login_store e b d s) as [E|[i E]]; rewrite E; [assumption|].
    now apply update_last_login_inv.
  - now rewrite logout_store.
  - now rewrite profile_store.
Qed.

Lemma reachable_inv (d : db) : reachable d -> store_inv d.
Proof.
  induction 1 as [|d e o s R IH].
  - repeat split; constructor.
  - now apply serve_inv.
Qed.

Lemma register_trace (e : env) (b : body) (d : db) (s : session) (q : sql) :
  In (Query q) (trace (snd (register e b (request d s)))) ->
  q = SelectUserByUsernameOrEmail
        (Js.toLowerCase (Js.text (body_username b)))
        (Js.toLowerCase (Js.text (body_email b)))
  \/ exists h,
       q = InsertUser (Js.toLowerCase (Js.text (body_username b)))
                      (Js.toLowerCase (Js.text (body_email b))) h.
Proof.
  destruct (validation b) as [r0|] eqn:V.
  { unfold register, try_catch, register_body. rewrite V. intros []. }
  destruct (fault e 0) eqn:F.
  { unfold register, try_catch, register_body. rewrite V.
    handler. rewrite F; simpl. intros [E|[]]. left; congruence. }
  rewrite (register_run e b d s V F). simpl.
  assert (T : forall (r : response) (w : db) (x : session) h,
    In (Query q)
       (trace (snd (r, mkWorld w x
          [Query (SelectUserByUsernameOrEmail
                    (Js.toLowerCase (Js.text (body_username b)))
                    (Js.toLowerCase (Js.text (body_email b))));
           Hash (Js.text (body_password b));
           Query (InsertUser (Js.toLowerCase (Js.text (body_username b)))
                             (Js.toLowerCase (Js.text (body_email b))) h)]))) ->
    q = SelectUserByUsernameOrEmail
          (Js.toLowerCase (Js.text (body_username b)))
          (Js.toLowerCase (Js.text (body_email b)))
    \/ exists h,
         q = InsertUser (Js.toLowerCase (Js.text (body_username b)))
                        (Js.toLowerCase (Js.text (body_email b))) h).
  { simpl. intros r w x h [E|[E|[E|[]]]].
    - left; congruence.
    - discriminate.
    - right. exists h. congruence. }
  destruct (select_by_username_or_email _ _ d).
  2:{ simpl. intros [E|[]]. left; congruence. }
  destruct (fault e 1); [apply T|].
  destruct (insert_user _ _ _ _ d) as [[err|[|nu rows]] d']; apply T.
Qed.

(** C9.  In every table the service can bring about all usernames and
    e-mail addresses are lowercase, and they still are after any further
    request; every statement register sends carries the lowercased
    username and e-mail; the row it stores holds exactly the lowercased
    username and the lowercased e-mail; and its read-check finds exactly the rows equal
    to the input up to case. *)
Theorem stored_identities_are_lowercase
    (e : env) (o : route) (b : body) (d : db) (s : session) :
  reachable d ->
  let name := Js.toLowerCase (Js.text (body_username b)) in
  let mail := Js.toLowerCase (Js.text (body_email b)) in
  lowercase_inv d
  /\ lowercase_inv (store (snd (serve e o (request d s))))
  /\ (forall q, In (Query q) (trace (snd (register e b (request d s)))) ->
        q = SelectUserByUsernameOrEmail name mail
        \/ exists h, q = InsertUser name mail h)
  /\ (forall r w, register e b (request d s) = (r, w) -> status r = 201 ->
        exists u, users (store w) = (users d ++ [u])%list
                  /\ username u = name
                  /\ email u = mail
                  /\ lowercase_row u)
  /\ select_by_username_or_email name mail d
     = filter (fun r => String.eqb (Js.toLowerCase (username r)) name
                        || String.eqb (Js.toLowerCase (email r)) mail)
              (users d).
Proof.
  intros R name mail.
  pose proof (reachable_inv d R) as I.
  split; [apply I|].
  split; [apply (serve_inv e o d s I)|].
  split; [intro q; apply register_trace|].
  split.
  - intros r w Run Ok.
    destruct (register_created e b d s r w Run Ok)
      as (_ & _ & p & _ & _ & _ & St & _).
    eexists. rewrite St. simpl. split; [reflexivity|].
    split; [reflexivity|]. split; [reflexivity|].
    split; simpl; apply toLowerCase_idem.
  - unfold select_by_username_or_email. destruct I as (Low & _).
    unfold lowercase_inv in Low. induction (users d) as [|r l IH];
      [reflexivity|].
    inversion Low as [|? ? [Lu Lm] Low']; subst. simpl.
    rewrite Lu, Lm, (IH Low'). reflexivity.
Qed.

(** Conditions under which a registration is answered 201. *)
Lemma register_succeeds (e : env) (b : body) (d : db) (s : session) :
  hasher_fits ->
  seq_fresh d ->
  validation b = None ->
  (String.length (Js.text (body_email b)) <= 100)%nat ->
  select_by_username_or_email
    (Js.toLowerCase (Js.text (body_username b)))
    (Js.toLowerCase (Js.text (body_email b))) d = [] ->
  fault e 0 = false -> fault e 1 = false ->
  status (fst (register e b (request d s))) = 201.
Proof.
  intros Fits Fresh V Len Sel F0 F1.
  rewrite (register_run e b d s V F0). simpl. rewrite Sel, F1.
  unfold insert_user.
  pose proof (validation_passed b V) as (_ & _ & _ & [_ L] & _ & _).
  rewrite !varchar_fits
    by (rewrite ?toLowerCase_length; auto using Fits).
  replace (existsb _ (users d)) with false; [reflexivity|].
  symmetry. apply not_true_is_false. intro X.
  apply existsb_exists in X. destruct X as [r [I C]].
  pose proof (filter_nil _ _ Sel r I) as N. simpl in N.
  unfold collides in C. rewrite <- orb_assoc, N, orb_false_r in C.
  apply Z.eqb_eq in C. unfold seq_fresh in Fresh.
  rewrite Forall_forall in Fresh. specialize (Fresh r I). lia.
Qed.

(** C1.  After a registration answered 201, a login with the same username
    in any case variant and the same password is answered 200 and names
    the same account id, which is also the id bound to the session. *)
Theorem register_then_login
    (e1 e2 : env) (b : body) (d : db) (s1 s2 : session)
    (r1 : response) (w1 : world) (variant : string) (other : option string) :
  hasher_sound -> hasher_fits ->
  lowercase_inv d ->
  register e1 b (request d s1) = (r1, w1) ->
  status r1 = 201 ->
  Js.toLowerCase variant = Js.toLowerCase (Js.text (body_username b)) ->
  fault e2 0 = false -> fault e2 1 = false ->
  let r2 := fst (login e2 (mkBody (Some variant) other (body_password b))
                       (request (store w1) s2)) in
  let w2 := snd (login e2 (mkBody (Some variant) other (body_password b))
                       (request (store w1) s2)) in
  status r2 = 200
  /\ exists i : Z,
       user_field "id" r1 = Some (JNum i)
       /\ user_field "id" r2 = Some (JNum i)
       /\ userId (sess w2) = Some i.
Proof.
  intros Sound Fits Low Run Ok Var F0 F1.
  destruct (register_created e1 b d s1 r1 w1 Run Ok)
    as (V & Sel & p & _ & Vp & Resp & St & _).
  pose proof (validation_passed b V) as (Tu & _ & Tp & _ & _ & _).
  rewrite varchar_fits in Vp by apply Fits. inversion Vp; subst p; clear Vp.
  set (u := new_row e1 (users_id_seq d)
              (Js.toLowerCase (Js.text (body_username b)))
              (Js.toLowerCase (Js.text (body_email b)))
              (bcrypt_hash (Js.text (body_password b)) (saltRounds e1) (salt e1)))
    in *.
  assert (Tv : Js.truthy (Some variant) = true).
  { simpl. apply negb_true_iff, String.eqb_neq. intro E; subst variant.
    simpl in Var. symmetry in Var. apply toLowerCase_nonempty in Var.
    destruct (body_username b) as [x|]; simpl in *; [|discriminate].
    subst x. discriminate. }
  assert (Found : select_active_by_username variant (store w1) = [u]).
  { rewrite St. unfold select_active_by_username, LOWER. simpl.
    rewrite filter_app. simpl. rewrite Var, toLowerCase_idem, String.eqb_refl.
    simpl. rewrite filter_none; [reflexivity|].
    intros r I. pose proof (filter_nil _ _ Sel r I) as N. simpl in N.
    apply orb_false_iff in N. destruct N as [N _].
    unfold lowercase_inv in Low. rewrite Forall_forall in Low.
    destruct (Low r I) as [Lr _]. rewrite Lr, N. reflexivity. }
  intros r2 w2. subst r2 w2.
  rewrite (login_lookup e2 (mkBody (Some variant) other (body_password b))
             (store w1) s2 Tv Tp F0). simpl.
  rewrite Found. simpl. rewrite Sound, F1. simpl.
  split; [reflexivity|]. exists (users_id_seq d). rewrite Resp.
  repeat split; reflexivity.
Qed.

(* ================================================================== *)
(** ** Concurrent registrations *)

Lemma reg_run_start (e : env) (b : body) (d : db) (s : session) (t : list event) :
  validation b = None ->
  fault e (List.length (filter is_query t)) = false ->
  reg_run e (AtStart b) (mkWorld d s t)
  = let name := Js.text (body_username b) in
    let mail := Js.text (body_email b) in
    let q1 := Query (SelectUserByUsernameOrEmail
                       (Js.toLowerCase name) (Js.toLowerCase mail)) in
    match select_by_username_or_email
            (Js.toLowerCase name) (Js.toLowerCase mail) d with
    | existing :: _ =>
        (Finished (conflict existing name), mkWorld d s (t ++ [q1]))
    | [] =>
        (AwaitHash name mail (Js.text (body_password b)),
         mkWorld d s (t ++ [q1]))
    end.
Proof.
  intros V F. unfold reg_run, reg_step. rewrite V. unfold bind.
  rewrite db_query_run, F. simpl.
  destruct (select_by_username_or_email _ _ d); reflexivity.
Qed.

Lemma reg_run_hash (e : env) (name mail pass : string) (w : world) :
  reg_run e (AwaitHash name mail pass) w
  = (AwaitInsert name mail (bcrypt_hash pass (saltRounds e) (salt e)),
     mkWorld (store w) (sess w) (trace w ++ [Hash pass])).
Proof. reflexivity. Qed.

Lemma reg_run_insert (e : env) (name mail h : string)
    (d : db) (s : session) (t : list event) :
  fault e (List.length (filter is_query t)) = false ->
  reg_run e (AwaitInsert name mail h) (mkWorld d s t)
  = let t' := (t ++ [Query (InsertUser (Js.toLowerCase name)
                                       (Js.toLowerCase mail) h)])%list in
    match insert_user (now e) (Js.toLowerCase name) (Js.toLowerCase mail) h d
    with
    | (inr (newUser :: _), d') =>
        (Finished (registered (cols newUser)),
         mkWorld d' (new_session e (cols newUser)) t')
    | (inr [], d') => (Finished (register_catch TypeError), mkWorld d' s t')
    | (inl err, d') => (Finished (register_catch err), mkWorld d' s t')
    end.
Proof.
  intro F. unfold reg_run, reg_step, register_insert, bind.
  rewrite db_query_run, F. simpl.
  destruct (insert_user _ _ _ _ d) as [[err|[|nu rows]] d']; reflexivity.
Qed.

Lemma reg_run_finished (e : env) (r : response) (w : world) :
  reg_run e (Finished r) w = (Finished r, w).
Proof. reflexivity. Qed.

(** Cutting the handler at its awaits does not change it: three steps of a
    request that runs alone are the register handler. *)
Lemma register_staged (e : env) (b : body) (d : db) (s : session) :
  let '(pc1, w1) := reg_run e (AtStart b) (request d s) in
  let '(pc2, w2) := reg_run e pc1 w1 in
  reg_run e pc2 w2
  = (Finished (fst (register e b (request d s))),
     snd (register e b (request d s))).
Proof.
  destruct (validation b) as [r0|] eqn:V.
  { unfold reg_run at 1, reg_step, register, try_catch, register_body.
    rewrite V. reflexivity. }
  destruct (fault e 0) eqn:F.
  { unfold reg_run at 1, reg_step, register, try_catch, register_body.
    rewrite V. handler. rewrite F. reflexivity. }
  unfold request. rewrite (reg_run_start e b d s [] V F).
  fold (request d s). rewrite (register_run e b d s V F). simpl.
  destruct (select_by_username_or_email _ _ d); [|reflexivity].
  rewrite reg_run_hash. simpl.
  destruct (fault e 1) eqn:F1.
  { unfold reg_run, reg_step, register_insert, bind.
    rewrite db_query_run. simpl. rewrite F1. reflexivity. }
  rewrite reg_run_insert by exact F1. simpl.
  destruct (insert_user _ _ _ _ d) as [[err|[|nu rows]] d']; reflexivity.
Qed.

Lemma client_step_finished (d : db) (c : client) (r : response) :
  c_pc c = Finished r -> client_step d c = (d, c).
Proof.
  intro E. destruct c as [e pc s t]. simpl in E. subst pc. reflexivity.
Qed.

Lemma seq_fresh_burnt (d : db) :
  seq_fresh d -> seq_fresh (mkDb (users d) (users_id_seq d + 1)).
Proof.
  unfold seq_fresh; simpl. intro F. eapply Forall_impl; [|exact F].
  simpl; intros; lia.
Qed.

(** A request that moves while the table holds no row in its way. *)
Lemma client_step_free (e : env) (b : body) (d : db) (c : client) :
  hasher_fits -> reliable e ->
  validation b = None ->
  (String.length (Js.text (body_email b)) <= 100)%nat ->
  pending e b c ->
  seq_fresh d ->
  select_by_username_or_email
    (Js.toLowerCase (Js.text (body_username b)))
    (Js.toLowerCase (Js.text (body_email b))) d = [] ->
  seq_fresh (fst (client_step d c))
  /\ (todo (c_pc (snd (client_step d c))) <= pred (todo (c_pc c)))%nat
  /\ ((fst (client_step d c) = d /\ pending e b (snd (client_step d c)))
      \/ (exists u,
            users (fst (client_step d c)) = (users d ++ [u])%list
            /\ username u = Js.toLowerCase (Js.text (body_username b))
            /\ won (snd (client_step d c)))).
Proof.
  intros Fits Rel V Len [Env Pc] Fresh Sel.
  destruct c as [e' pc s t]; simpl in Env, Pc; subst e'.
  unfold client_step; cbn [c_env c_pc c_sess c_trace].
  destruct Pc as [->|[->| ->]].
  - rewrite reg_run_start by auto. simpl. rewrite Sel. simpl.
    split; [assumption|]. split; [simpl; lia|]. left.
    split; [reflexivity|]. split; simpl; auto.
  - rewrite reg_run_hash. simpl.
    split; [assumption|]. split; [simpl; lia|]. left.
    split; [reflexivity|]. split; simpl; auto.
  - rewrite reg_run_insert by auto. simpl.
    unfold insert_user.
    pose proof (validation_passed b V) as (_ & _ & _ & [_ L] & _ & _).
    rewrite !varchar_fits by (rewrite ?toLowerCase_length; auto using Fits).
    replace (existsb _ (users d)) with false.
    + simpl. split.
      * unfold seq_fresh in *. simpl. apply Forall_app. split.
        -- eapply Forall_impl; [|exact Fresh]. simpl; intros; lia.
        -- constructor; [simpl; lia|constructor].
      * split; [simpl; lia|]. right. eexists. split; [reflexivity|].
        split; [reflexivity|]. eexists. split; reflexivity.
    + symmetry. apply not_true_is_false. intro X.
      apply existsb_exists in X. destruct X as [r [I C]].
      pose proof (filter_nil _ _ Sel r I) as N. simpl in N.
      unfold collides in C. rewrite <- orb_assoc, N, orb_false_r in C.
      apply Z.eqb_eq in C. unfold seq_fresh in Fresh.
      rewrite Forall_forall in Fresh. specialize (Fresh r I). lia.
Qed.

(** A request that moves after the other one stored the username. *)
Lemma client_step_blocked (e : env) (b : body) (d0 d : db) (c : client)
    (u : user) :
  hasher_fits -> reliable e ->
  validation b = None ->
  (String.length (Js.text (body_email b)) <= 100)%nat ->
  pending e b c ->
  seq_fresh d ->
  select_by_username_or_email
    (Js.toLowerCase (Js.text (body_username b)))
    (Js.toLowerCase (Js.text (body_email b))) d0 = [] ->
  users d = (users d0 ++ [u])%list ->
  username u = Js.toLowerCase (Js.text (body_username b)) ->
  seq_fresh (fst (client_step d c))
  /\ users (fst (client_step d c)) = users d
  /\ (todo (c_pc (snd (client_step d c))) <= pred (todo (c_pc c)))%nat
  /\ (pending e b (snd (client_step d c)) \/ lost (snd (client_step d c))).
Proof.
  intros Fits Rel V Len [Env Pc] Fresh Sel Users Name.
  destruct c as [e' pc s t]; simpl in Env, Pc; subst e'.
  unfold client_step; cbn [c_env c_pc c_sess c_trace].
  destruct Pc as [->|[->| ->]].
  - rewrite reg_run_start by auto. simpl.
    unfold select_by_username_or_email in *. rewrite Users, filter_app, Sel.
    simpl. rewrite Name, String.eqb_refl. simpl.
    split; [assumption|]. split; [assumption|]. split; [simpl; lia|].
    right. left. simpl. unfold conflict, conflictField.
    rewrite Name, toLowerCase_idem, String.eqb_refl. reflexivity.
  - rewrite reg_run_hash. simpl.
    split; [assumption|]. split; [reflexivity|]. split; [simpl; lia|].
    left. split; simpl; auto.
  - rewrite reg_run_insert by auto. simpl.
    unfold insert_user.
    pose proof (validation_passed b V) as (_ & _ & _ & [_ L] & _ & _).
    rewrite !varchar_fits by (rewrite ?toLowerCase_length; auto using Fits).
    replace (existsb _ (users d)) with true.
    + simpl. split; [now apply seq_fresh_burnt|].
      split; [reflexivity|]. split; [simpl; lia|]. right. right. reflexivity.
    + symmetry. apply existsb_exists. exists u. split.
      * rewrite Users. apply in_or_app. right. now left.
      * unfold collides. rewrite Name, String.eqb_refl.
        now rewrite orb_true_r.
Qed.

Lemma pending_todo (e : env) (b : body) (c : client) :
  pending e b c -> (1 <= todo (c_pc c))%nat.
Proof. intros [_ [E|[E|E]]]; rewrite E; simpl; lia. Qed.

Lemma won_todo (c : client) : won c -> todo (c_pc c) = 0%nat.
Proof. intros [r [E _]]. now rewrite E. Qed.

Lemma lost_todo (c : client) : lost c -> todo (c_pc c) = 0%nat.
Proof. intros [E|E]; now rewrite E. Qed.

Lemma client_step_won (d : db) (c : client) :
  won c -> client_step d c = (d, c).
Proof. intros [r [E _]]. eapply client_step_finished; eassumption. Qed.

Lemma client_step_lost (d : db) (c : client) :
  lost c -> client_step d c = (d, c).
Proof. intros [E|E]; eapply client_step_finished; eassumption. Qed.

Lemma select_users (p1 p2 : string) (d d' : db) :
  users d = users d' ->
  select_by_username_or_email p1 p2 d = select_by_username_or_email p1 p2 d'.
Proof. unfold select_by_username_or_email. now intros ->. Qed.

(** One turn of either request keeps the invariant and brings the request
    that moved closer to its end. *)
Ltac finish_phase :=
  split; [first [reflexivity | assumption]
         | split; [assumption | tauto]].

Lemma race_step (eA : env) (bA : body) (eB : env) (bB : body) (d : db)
    (s : system) (turn : bool) :
  hasher_fits -> racing eA bA eB bB d ->
  race_inv eA bA eB bB d s ->
  race_inv eA bA eB bB d (system_step s turn)
  /\ (todo (c_pc (first (system_step s turn)))
      <= if turn then pred (todo (c_pc (first s))) else todo (c_pc (first s)))%nat
  /\ (todo (c_pc (second (system_step s turn)))
      <= if turn then todo (c_pc (second s)) else pred (todo (c_pc (second s))))%nat.
Proof.
  intros Fits (RelA & RelB & VA & VB & LenA & LenB & Same & _ & SelA & SelB)
         [Fresh Phase].
  destruct s as [dd cA cB]. simpl in Fresh, Phase.
  unfold system_step, race_inv. cbn [shared first second].
  destruct turn.
  - (* the first request moves *)
    destruct Phase as [(U & PA & PB)|(u & U & Name & [[WA PB]|[WB PA]])].
    + assert (Sel' := SelA). rewrite <- (select_users _ _ dd d U) in Sel'.
      destruct (client_step_free eA bA dd cA Fits RelA VA LenA PA Fresh Sel')
        as (Fr & Td & Step).
      destruct (client_step dd cA) as [dd' cA']. simpl in *.
      split; [split; [assumption|]|split; [assumption|lia]].
      destruct Step as [[-> PA']|(u & U' & Name & WA')].
      * left. split; [assumption|split; assumption].
      * right. exists u. rewrite U', U. finish_phase.
    + rewrite (client_step_won dd cA WA). simpl.
      pose proof (won_todo cA WA).
      split; [split; [assumption|]|split; lia].
      right. exists u. finish_phase.
    + destruct PA as [PA|LA].
      * destruct (client_step_blocked eA bA d dd cA u Fits RelA VA LenA PA
                    Fresh SelA U Name) as (Fr & U' & Td & Step).
        destruct (client_step dd cA) as [dd' cA']. simpl in *.
        split; [split; [assumption|]|split; [assumption|lia]].
        right. exists u. rewrite U', U. finish_phase.
      * rewrite (client_step_lost dd cA LA). simpl.
        pose proof (lost_todo cA LA).
        split; [split; [assumption|]|split; lia].
        right. exists u. finish_phase.
  - (* the second request moves *)
    destruct Phase as [(U & PA & PB)|(u & U & Name & [[WA PB]|[WB PA]])].
    + assert (Sel' := SelB). rewrite <- (select_users _ _ dd d U) in Sel'.
      destruct (client_step_free eB bB dd cB Fits RelB VB LenB PB Fresh Sel')
        as (Fr & Td & Step).
      destruct (client_step dd cB) as [dd' cB']. simpl in *.
      split; [split; [assumption|]|split; [lia|assumption]].
      destruct Step as [[-> PB']|(u & U' & Name & WB')].
      * left. split; [assumption|split; assumption].
      * right. exists u. rewrite U', U, Same. finish_phase.
    + destruct PB as [PB|LB].
      * rewrite Same in Name.
        destruct (client_step_blocked eB bB d dd cB u Fits RelB VB LenB PB
                    Fresh SelB U Name) as (Fr & U' & Td & Step).
        destruct (client_step dd cB) as [dd' cB']. simpl in *.
        split; [split; [assumption|]|split; [lia|assumption]].
        right. exists u. rewrite U', U, Same. finish_phase.
      * rewrite (client_step_lost dd cB LB). simpl.
        pose proof (lost_todo cB LB).
        split; [split; [assumption|]|split; lia].
        right. exists u. finish_phase.
    + rewrite (client_step_won dd cB WB). simpl.
      pose proof (won_todo cB WB).
      split; [split; [assumption|]|split; lia].
      right. exists u. finish_phase.
Qed.

Lemma race_run (eA : env) (bA : body) (eB : env) (bB : body) (d : db)
    (schedule : list bool) (s : system) :
  hasher_fits -> racing eA bA eB bB d ->
  race_inv eA bA eB bB d s ->
  race_inv eA bA eB bB d (run schedule s)
  /\ (todo (c_pc (first (run schedule s)))
      <= todo (c_pc (first s)) - count_occ bool_dec schedule true)%nat
  /\ (todo (c_pc (second (run schedule s)))
      <= todo (c_pc (second s)) - count_occ bool_dec schedule false)%nat.
Proof.
  intros Fits Race. revert s.
  induction schedule as [|turn rest IH]; intros s Inv.
  - simpl. split; [assumption|]. lia.
  - destruct (race_step eA bA eB bB d s turn Fits Race Inv) as (Inv' & TA & TB).
    destruct (IH (system_step s turn) Inv') as (Inv'' & TA' & TB').
    unfold run in *. simpl fold_left.
    split; [assumption|].
    destruct turn; simpl count_occ;
      repeat match goal with
             | |- context [bool_dec ?x ?y] => destruct (bool_dec x y)
             end; try congruence; lia.
Qed.

(** The outcome of two racing registrations of one username. *)
Lemma race_outcome
    (eA : env) (bA : body) (eB : env) (bB : body) (d : db)
    (schedule : list bool) :
  hasher_fits ->
  racing eA bA eB bB d ->
  complete schedule ->
  let final := run schedule (mkSystem d (arrive eA bA) (arrive eB bB)) in
  exists (rA rB : response) (u : user),
    outcome (first final) = Some rA
    /\ outcome (second final) = Some rB
    /\ ((status rA = 201 /\ status rB = 400
         /\ (rB = username_taken \/ rB = username_or_email_exists))
        \/ (status rB = 201 /\ status rA = 400
            /\ (rA = username_taken \/ rA = username_or_email_exists)))
    /\ users (shared final) = (users d ++ [u])%list
    /\ username u = Js.toLowerCase (Js.text (body_username bA)).
Proof.
  intros Fits Race [CA CB] final.
  assert (Init : race_inv eA bA eB bB d
                   (mkSystem d (arrive eA bA) (arrive eB bB))).
  { destruct Race as (_ & _ & _ & _ & _ & _ & _ & Fresh & _).
    split; [exact Fresh|]. left. simpl.
    split; [reflexivity|]. split; split; simpl; auto. }
  destruct (race_run eA bA eB bB d schedule _ Fits Race Init)
    as ([_ Phase] & TA & TB).
  fold final in Phase, TA, TB.
  unfold arrive in TA, TB. cbn [first second c_pc todo] in TA, TB.
  assert (ZA : todo (c_pc (first final)) = 0%nat) by lia.
  assert (ZB : todo (c_pc (second final)) = 0%nat) by lia.
  assert (NP : forall e b c, todo (c_pc c) = 0%nat -> ~ pending e b c).
  { intros e b c Z P. apply pending_todo in P. lia. }
  assert (L : forall c, lost c ->
            exists r, outcome c = Some r /\ status r = 400
                      /\ (r = username_taken \/ r = username_or_email_exists)).
  { intros c [E|E]; unfold outcome; rewrite E; eexists;
      (split; [reflexivity|]); (split; [reflexivity|]); auto. }
  assert (W : forall c, won c -> exists r, outcome c = Some r /\ status r = 201).
  { intros c [r [E S]]. unfold outcome. rewrite E. eauto. }
  destruct Phase as [(_ & PA & _)|(u & U & Name & [[WA PB]|[WB PA]])].
  - exfalso. exact (NP _ _ _ ZA PA).
  - destruct PB as [PB|LB]; [exfalso; exact (NP _ _ _ ZB PB)|].
    destruct (W _ WA) as (rA & OA & SA).
    destruct (L _ LB) as (rB & OB & SB & MB).
    exists rA, rB, u. repeat split; auto.
  - destruct PA as [PA|LA]; [exfalso; exact (NP _ _ _ ZA PA)|].
    destruct (W _ WB) as (rB & OB & SB).
    destruct (L _ LA) as (rA & OA & SA & MA).
    exists rA, rB, u. repeat split; auto.
Qed.

(** The conditions of the race say that each request, served alone on
    the table, would be answered 201. *)
Lemma racing_alone (eA : env) (bA : body) (eB : env) (bB : body) (d : db)
    (s : session) :
  hasher_fits -> racing eA bA eB bB d ->
  status (fst (register eA bA (request d s))) = 201
  /\ status (fst (register eB bB (request d s))) = 201.
Proof.
  intros Fits (RelA & RelB & VA & VB & LenA & LenB & _ & Fresh & SelA & SelB).
  split; apply register_succeeds; auto.
Qed.

(** The insert refuses a row whose username or e-mail is already in the
    table, whatever the state of the account that holds it and whether or
    not a read-check came before. *)
Lemma insert_user_rejects_duplicate (t : Z) (u m p : string) (d : db) (r : user) :
  (String.length u <= 50)%nat -> (String.length m <= 100)%nat ->
  (String.length p <= 255)%nat ->
  In r (users d) -> username r = u \/ email r = m ->
  insert_user t u m p d
  = (inl (PgError "23505"), mkDb (users d) (users_id_seq d + 1)).
Proof.
  intros Lu Lm Lp I Dup. unfold insert_user.
  rewrite (varchar_fits 50 u Lu), (varchar_fits 100 m Lm),
    (varchar_fits 255 p Lp).
  replace (existsb _ (users d)) with true; [reflexivity|].
  symmetry. apply existsb_exists. exists r. split; [assumption|].
  unfold collides.
  destruct Dup as [<-|<-]; rewrite String.eqb_refl, ?orb_true_r;
    reflexivity.
Qed.

(** The insert of the register handler, run on its own against a table of
    lowercase identities: a stored account, active or not, whose username
    or e-mail equals the new one up to case makes the store refuse the
    row. *)
Lemma register_insert_rejects_duplicate
    (e : env) (name mail h : string) (d : db) (s : session)
    (t : list event) (r : user) :
  lowercase_inv d ->
  (String.length name <= 50)%nat -> (String.length mail <= 100)%nat ->
  (String.length h <= 255)%nat ->
  fault e (List.length (filter is_query t)) = false ->
  In r (users d) ->
  LOWER (username r) = LOWER name \/ LOWER (email r) = LOWER mail ->
  register_insert e name mail h (mkWorld d s t)
  = (inl (PgError "23505"),
     mkWorld (mkDb (users d) (users_id_seq d + 1)) s
             (t ++ [Query (InsertUser (Js.toLowerCase name)
                                      (Js.toLowerCase mail) h)])).
Proof.
  unfold LOWER. intros Low Ln Lm Lh F I Dup.
  unfold lowercase_inv in Low. rewrite Forall_forall in Low.
  destruct (Low r I) as [Lu Le]. rewrite Lu, Le in Dup.
  unfold register_insert, bind. rewrite db_query_run, F. simpl.
  rewrite (insert_user_rejects_duplicate (now e) _ _ h d r);
    rewrite ?toLowerCase_length; auto.
Qed.

(** C4.  Uniqueness up to case is enforced by the insert: run on its own,
    without any read-check before it, the insert of the register handler
    is refused by the store (unique violation) whenever an account, active
    or not, holds the username or the e-mail up to case.  So of two
    registrations of one username (in any case variants), each of which
    would pass alone, interleaved in any way at their awaits, exactly one
    is answered 201 and the other 400, and the table gains exactly one
    row, with the lowercased username.  The rejection comes from the
    read-check when the loser's check runs after the winner's insert, and
    from the insert itself otherwise. *)
Theorem concurrent_registrations_one_winner
    (eA : env) (bA : body) (eB : env) (bB : body) (d : db)
    (schedule : list bool) :
  (forall (e : env) (name mail h : string) (d1 : db) (s : session)
          (t : list event) (r : user),
     lowercase_inv d1 ->
     (String.length name <= 50)%nat -> (String.length mail <= 100)%nat ->
     (String.length h <= 255)%nat ->
     fault e (List.length (filter is_query t)) = false ->
     In r (users d1) ->
     LOWER (username r) = LOWER name \/ LOWER (email r) = LOWER mail ->
     register_insert e name mail h (mkWorld d1 s t)
     = (inl (PgError "23505"),
        mkWorld (mkDb (users d1) (users_id_seq d1 + 1)) s
                (t ++ [Query (InsertUser (Js.toLowerCase name)
                                         (Js.toLowerCase mail) h)])))
  /\ (hasher_fits ->
      racing eA bA eB bB d ->
      complete schedule ->
      let final := run schedule (mkSystem d (arrive eA bA) (arrive eB bB)) in
      exists (rA rB : response) (u : user),
        outcome (first final) = Some rA
        /\ outcome (second final) = Some rB
        /\ ((status rA = 201 /\ status rB = 400
             /\ (rB = username_taken \/ rB = username_or_email_exists))
            \/ (status rB = 201 /\ status rA = 400
                /\ (rA = username_taken \/ rA = username_or_email_exists)))
        /\ users (shared final) = (users d ++ [u])%list
        /\ username u = Js.toLowerCase (Js.text (body_username bA))).
Proof.
  split.
  - exact register_insert_rejects_duplicate.
  - exact (race_outcome eA bA eB bB d schedule).
Qed.

(* ================================================================== *)
(** ** Conflict messages *)

Lemma register_conflict (e : env) (b : body) (d : db) (s : session) :
  lowercase_inv d ->
  validation b = None ->
  fault e 0 = false ->
  (exists r, In r (users d)
             /\ (LOWER (username r) = LOWER (Js.text (body_username b))
                 \/ LOWER (email r) = LOWER (Js.text (body_email b)))) ->
  exists (fld : string) (existing : user),
    In existing (users d)
    /\ fst (register e b (request d s))
       = reply 400 (error ("This " ++ fld ++ " is already registered"))
    /\ store (snd (register e b (request d s))) = d
    /\ ((fld = "username"
         /\ LOWER (username existing) = LOWER (Js.text (body_username b)))
        \/ (fld = "email"
            /\ LOWER (email existing) = LOWER (Js.text (body_email b))))
    /\ names_field fld (fst (register e b (request d s))) = true.
Proof.
  unfold LOWER. intros Low V F (r & I & Dup).
  rewrite (register_run e b d s V F). simpl.
  unfold lowercase_inv in Low. rewrite Forall_forall in Low.
  destruct (select_by_username_or_email _ _ d) as [|existing rest] eqn:Sel.
  { exfalso. pose proof (filter_nil _ _ Sel r I) as N. simpl in N.
    destruct (Low r I) as [Lu Lm]. rewrite Lu, Lm in Dup.
    apply orb_false_iff in N. destruct N as [Nu Nm].
    apply String.eqb_neq in Nu, Nm. tauto. }
  assert (M : In existing (select_by_username_or_email
                 (Js.toLowerCase (Js.text (body_username b)))
                 (Js.toLowerCase (Js.text (body_email b))) d))
    by (rewrite Sel; now left).
  unfold select_by_username_or_email in M. apply filter_In in M.
  destruct M as [Ie M]. simpl.
  unfold conflict, conflictField.
  destruct (String.eqb (Js.toLowerCase (username existing)) _) eqn:Q.
  - exists "username", existing. apply String.eqb_eq in Q.
    repeat split; auto.
  - exists "email", existing. apply String.eqb_neq in Q.
    repeat split; auto. right. split; [reflexivity|].
    apply orb_true_iff in M. destruct M as [M|M]; apply String.eqb_eq in M.
    + exfalso. apply Q. now rewrite M, toLowerCase_idem.
    + now rewrite M, toLowerCase_idem.
Qed.

(* ------------------------------------------------------------------ *)
(** *** Which rejection the loser gets *)

Lemma step_arrive_free (e : env) (b : body) (dd : db) :
  validation b = None -> reliable e ->
  select_by_username_or_email
    (Js.toLowerCase (Js.text (body_username b)))
    (Js.toLowerCase (Js.text (body_email b))) dd = [] ->
  client_step dd (arrive e b) = (dd, after_check e b).
Proof.
  intros V Rel Sel. unfold client_step, arrive.
  cbn [c_env c_pc c_sess c_trace].
  rewrite reg_run_start by auto. simpl. rewrite Sel. reflexivity.
Qed.

Lemma step_after_check (e : env) (b : body) (dd : db) :
  client_step dd (after_check e b) = (dd, after_hash e b).
Proof. reflexivity. Qed.

Lemma step_after_hash_free (e : env) (b : body) (dd : db) :
  hasher_fits -> reliable e -> validation b = None ->
  (String.length (Js.text (body_email b)) <= 100)%nat ->
  seq_fresh dd ->
  select_by_username_or_email
    (Js.toLowerCase (Js.text (body_username b)))
    (Js.toLowerCase (Js.text (body_email b))) dd = [] ->
  let u := new_row e (users_id_seq dd)
             (Js.toLowerCase (Js.text (body_username b)))
             (Js.toLowerCase (Js.text (body_email b))) (hashed e b) in
  client_step dd (after_hash e b)
  = (mkDb (users dd ++ [u]) (users_id_seq dd + 1),
     mkClient e (Finished (registered u)) (new_session e u)
              [read_check b; Hash (Js.text (body_password b)); insert_of e b]).
Proof.
  intros Fits Rel V Len Fresh Sel u. unfold client_step, after_hash.
  cbn [c_env c_pc c_sess c_trace].
  rewrite reg_run_insert by auto. simpl. unfold insert_user.
  pose proof (validation_passed b V) as (_ & _ & _ & [_ L] & _ & _).
  rewrite !varchar_fits
    by (rewrite ?toLowerCase_length; auto; unfold hashed; apply Fits).
  replace (existsb _ (users dd)) with false; [reflexivity|].
  symmetry. apply not_true_is_false. intro X.
  apply existsb_exists in X. destruct X as [r [I C]].
  pose proof (filter_nil _ _ Sel r I) as N. simpl in N.
  unfold collides in C. rewrite <- orb_assoc, N, orb_false_r in C.
  apply Z.eqb_eq in C. unfold seq_fresh in Fresh.
  rewrite Forall_forall in Fresh. specialize (Fresh r I). lia.
Qed.

Lemma step_arrive_blocked (e : env) (b : body) (d dd : db) :
  validation b = None -> reliable e ->
  select_by_username_or_email
    (Js.toLowerCase (Js.text (body_username b)))
    (Js.toLowerCase (Js.text (body_email b))) d = [] ->
  winner_stored b d dd ->
  client_step dd (arrive e b) = (dd, turned_down_by_check e b).
Proof.
  intros V Rel Sel (u & U & Name). unfold client_step, arrive.
  cbn [c_env c_pc c_sess c_trace].
  rewrite reg_run_start by auto. simpl.
  unfold select_by_username_or_email in *. rewrite U, filter_app, Sel.
  simpl. rewrite Name, String.eqb_refl. simpl.
  unfold turned_down_by_check, username_taken, conflict, conflictField.
  rewrite Name, toLowerCase_idem, String.eqb_refl. reflexivity.
Qed.

Lemma step_after_hash_blocked (e : env) (b : body) (d dd : db) :
  hasher_fits -> reliable e -> validation b = None ->
  (String.length (Js.text (body_email b)) <= 100)%nat ->
  winner_stored b d dd ->
  client_step dd (after_hash e b)
  = (mkDb (users dd) (users_id_seq dd + 1), turned_down_by_insert e b).
Proof.
  intros Fits Rel V Len (u & U & Name). unfold client_step, after_hash.
  cbn [c_env c_pc c_sess c_trace].
  rewrite reg_run_insert by auto. simpl. unfold insert_user.
  pose proof (validation_passed b V) as (_ & _ & _ & [_ L] & _ & _).
  rewrite !varchar_fits
    by (rewrite ?toLowerCase_length; auto; unfold hashed; apply Fits).
  replace (existsb _ (users dd)) with true; [reflexivity|].
  symmetry. apply existsb_exists. exists u. split.
  - rewrite U. apply in_or_app. right. now left.
  - unfold collides. rewrite Name, String.eqb_refl. now rewrite orb_true_r.
Qed.

Lemma winner_stored_users (b : body) (d dd dd' : db) :
  users dd' = users dd -> winner_stored b d dd -> winner_stored b d dd'.
Proof. intros E (u & U & N). exists u. now rewrite E. Qed.

Lemma winner_stored_same (bA bB : body) (d dd : db) :
  Js.toLowerCase (Js.text (body_username bA))
  = Js.toLowerCase (Js.text (body_username bB)) ->
  winner_stored bA d dd -> winner_stored bB d dd.
Proof. intros E (u & U & N). exists u. now rewrite <- E. Qed.

(** The request that comes second to the table is turned down by its
    read-check, whatever the order of the remaining steps. *)
Lemma winner_first_steps (e : env) (b : body) (d dd : db) (w l : client) :
  validation b = None -> reliable e ->
  select_by_username_or_email
    (Js.toLowerCase (Js.text (body_username b)))
    (Js.toLowerCase (Js.text (body_email b))) d = [] ->
  winner_first e b d dd w l ->
  client_step dd w = (dd, w)
  /\ winner_first e b d (fst (client_step dd l)) w (snd (client_step dd l)).
Proof.
  intros V Rel Sel (Fresh & St & Won & L).
  split; [now apply client_step_won|].
  destruct L as [->| ->].
  - rewrite (step_arrive_blocked e b d dd V Rel Sel St). simpl.
    repeat split; auto.
  - rewrite (client_step_finished dd (turned_down_by_check e b)
               username_taken eq_refl). simpl.
    repeat split; auto.
Qed.

Lemma first_wins_early (eA : env) (bA : body) (eB : env) (bB : body)
    (d : db) (schedule : list bool) (s : system) :
  racing eA bA eB bB d ->
  winner_first eB bB d (shared s) (first s) (second s) ->
  let final := run schedule s in
  winner_first eB bB d (shared final) (first final) (second final).
Proof.
  intros (_ & RelB & _ & VB & _ & _ & _ & _ & _ & SelB). revert s.
  induction schedule as [|turn rest IH]; intros s W; [exact W|].
  unfold run in *. simpl fold_left. apply IH.
  destruct s as [dd cA cB]. simpl in W.
  destruct (winner_first_steps eB bB d dd cA cB VB RelB SelB W) as [Stay Move].
  unfold system_step. cbn [shared first second].
  destruct turn.
  - rewrite Stay. exact W.
  - destruct (client_step dd cB) as [dd' cB']. exact Move.
Qed.

Lemma second_wins_early (eA : env) (bA : body) (eB : env) (bB : body)
    (d : db) (schedule : list bool) (s : system) :
  racing eA bA eB bB d ->
  winner_first eA bA d (shared s) (second s) (first s) ->
  let final := run schedule s in
  winner_first eA bA d (shared final) (second final) (first final).
Proof.
  intros (RelA & _ & VA & _ & _ & _ & _ & _ & SelA & _). revert s.
  induction schedule as [|turn rest IH]; intros s W; [exact W|].
  unfold run in *. simpl fold_left. apply IH.
  destruct s as [dd cA cB]. simpl in W.
  destruct (winner_first_steps eA bA d dd cB cA VA RelA SelA W) as [Stay Move].
  unfold system_step. cbn [shared first second].
  destruct turn.
  - destruct (client_step dd cA) as [dd' cA']. exact Move.
  - rewrite Stay. exact W.
Qed.

(** A request on its way after its read-check, when it moves. *)
Lemma checked_step (e : env) (b : body) (d dd : db) (c : client) :
  hasher_fits -> reliable e -> validation b = None ->
  (String.length (Js.text (body_email b)) <= 100)%nat ->
  select_by_username_or_email
    (Js.toLowerCase (Js.text (body_username b)))
    (Js.toLowerCase (Js.text (body_email b))) d = [] ->
  seq_fresh dd ->
  checked e b c ->
  (users dd = users d ->
     seq_fresh (fst (client_step dd c))
     /\ ((fst (client_step dd c) = dd /\ checked e b (snd (client_step dd c)))
         \/ (winner_stored b d (fst (client_step dd c))
             /\ won (snd (client_step dd c)))))
  /\ (winner_stored b d dd ->
      seq_fresh (fst (client_step dd c))
      /\ users (fst (client_step dd c)) = users dd
      /\ (checked e b (snd (client_step dd c))
          \/ snd (client_step dd c) = turned_down_by_insert e b)).
Proof.
  intros Fits Rel V Len Sel Fresh [->| ->].
  - rewrite step_after_check. simpl. split; intros _.
    + split; [assumption|]. left. split; [reflexivity|]. now right.
    + split; [assumption|]. split; [reflexivity|]. left. now right.
  - split.
    + intro U.
      assert (Sel' := Sel). rewrite <- (select_users _ _ dd d U) in Sel'.
      rewrite (step_after_hash_free e b dd Fits Rel V Len Fresh Sel').
      simpl. split.
      * unfold seq_fresh in *. simpl. apply Forall_app. split.
        -- eapply Forall_impl; [|exact Fresh]. simpl; intros; lia.
        -- constructor; [simpl; lia|constructor].
      * right. split.
        -- eexists. simpl. rewrite U. split; reflexivity.
        -- eexists. split; reflexivity.
    + intro St.
      rewrite (step_after_hash_blocked e b d dd Fits Rel V Len St). simpl.
      split; [now apply seq_fresh_burnt|]. split; [reflexivity|]. now right.
Qed.

Lemma both_checked_step (eA : env) (bA : body) (eB : env) (bB : body)
    (d : db) (s : system) (turn : bool) :
  hasher_fits -> racing eA bA eB bB d ->
  both_checked eA bA eB bB d s ->
  both_checked eA bA eB bB d (system_step s turn).
Proof.
  intros Fits (RelA & RelB & VA & VB & LenA & LenB & Same & _ & SelA & SelB)
         [Fresh Phase].
  destruct s as [dd cA cB]. simpl in Fresh, Phase.
  unfold system_step, both_checked. cbn [shared first second].
  destruct turn.
  - destruct Phase as [(U & CA & CB)|[(St & WA & LB)|(St & WB & [CA|TA])]].
    + destruct (checked_step eA bA d dd cA Fits RelA VA LenA SelA Fresh CA)
        as [Free _]. destruct (Free U) as (Fr & Step).
      destruct (client_step dd cA) as [dd' cA']. simpl in *.
      split; [assumption|].
      destruct Step as [[-> CA']|[St' WA']]; [left; auto|right; left; auto].
    + rewrite (client_step_won dd cA WA). simpl.
      split; [assumption|]. right. left. auto.
    + destruct (checked_step eA bA d dd cA Fits RelA VA LenA SelA Fresh CA)
        as [_ Blocked]. destruct (Blocked St) as (Fr & U' & Step).
      destruct (client_step dd cA) as [dd' cA']. simpl in *.
      split; [assumption|]. right. right.
      split; [now apply (winner_stored_users bA d dd dd')|]. auto.
    + subst cA.
      rewrite (client_step_finished dd (turned_down_by_insert eA bA)
                 username_or_email_exists eq_refl).
      simpl. split; [assumption|]. right. right. auto.
  - assert (StB : winner_stored bA d dd -> winner_stored bB d dd)
      by (apply winner_stored_same; exact Same).
    assert (StA : forall x, winner_stored bB d x -> winner_stored bA d x)
      by (intro x; apply winner_stored_same; symmetry; exact Same).
    destruct Phase as [(U & CA & CB)|[(St & WA & [CB|TB])|(St & WB & LA)]].
    + destruct (checked_step eB bB d dd cB Fits RelB VB LenB SelB Fresh CB)
        as [Free _]. destruct (Free U) as (Fr & Step).
      destruct (client_step dd cB) as [dd' cB']. simpl in *.
      split; [assumption|].
      destruct Step as [[-> CB']|[St' WB']]; [left; auto|right; right; auto].
    + destruct (checked_step eB bB d dd cB Fits RelB VB LenB SelB Fresh CB)
        as [_ Blocked]. destruct (Blocked (StB St)) as (Fr & U' & Step).
      destruct (client_step dd cB) as [dd' cB']. simpl in *.
      split; [assumption|]. right. left.
      split; [now apply (winner_stored_users bA d dd dd')|]. auto.
    + subst cB.
      rewrite (client_step_finished dd (turned_down_by_insert eB bB)
                 username_or_email_exists eq_refl).
      simpl. split; [assumption|]. right. left. auto.
    + rewrite (client_step_won dd cB WB). simpl.
      split; [assumption|]. right. right. auto.
Qed.

Lemma both_checked_run (eA : env) (bA : body) (eB : env) (bB : body)
    (d : db) (schedule : list bool) (s : system) :
  hasher_fits -> racing eA bA eB bB d ->
  both_checked eA bA eB bB d s ->
  both_checked eA bA eB bB d (run schedule s).
Proof.
  intros Fits Race. revert s.
  induction schedule as [|turn rest IH]; intros s B; [exact B|].
  unfold run in *. simpl fold_left. apply IH.
  now apply both_checked_step.
Qed.

Lemma sys_first_arrive (e : env) (b : body) (dd : db) (c2 : client) :
  validation b = None -> reliable e ->
  select_by_username_or_email
    (Js.toLowerCase (Js.text (body_username b)))
    (Js.toLowerCase (Js.text (body_email b))) dd = [] ->
  system_step (mkSystem dd (arrive e b) c2) true
  = mkSystem dd (after_check e b) c2.
Proof.
  intros V Rel Sel. unfold system_step. cbn [shared first second].
  now rewrite step_arrive_free.
Qed.

Lemma sys_second_arrive (e : env) (b : body) (dd : db) (c1 : client) :
  validation b = None -> reliable e ->
  select_by_username_or_email
    (Js.toLowerCase (Js.text (body_username b)))
    (Js.toLowerCase (Js.text (body_email b))) dd = [] ->
  system_step (mkSystem dd c1 (arrive e b)) false
  = mkSystem dd c1 (after_check e b).
Proof.
  intros V Rel Sel. unfold system_step. cbn [shared first second].
  now rewrite step_arrive_free.
Qed.

Lemma sys_first_check (e : env) (b : body) (dd : db) (c2 : client) :
  system_step (mkSystem dd (after_check e b) c2) true
  = mkSystem dd (after_hash e b) c2.
Proof. reflexivity. Qed.

Lemma sys_second_check (e : env) (b : body) (dd : db) (c1 : client) :
  system_step (mkSystem dd c1 (after_check e b)) false
  = mkSystem dd c1 (after_hash e b).
Proof. reflexivity. Qed.

(** A request that takes its three steps before the other one starts. *)
Lemma three_steps_alone (e : env) (b : body) (d : db) :
  hasher_fits -> reliable e -> validation b = None ->
  (String.length (Js.text (body_email b)) <= 100)%nat ->
  seq_fresh d ->
  select_by_username_or_email
    (Js.toLowerCase (Js.text (body_username b)))
    (Js.toLowerCase (Js.text (body_email b))) d = [] ->
  exists (dd : db) (w : client),
    client_step d (after_hash e b) = (dd, w)
    /\ seq_fresh dd /\ winner_stored b d dd /\ won w.
Proof.
  intros Fits Rel V Len Fresh Sel.
  rewrite (step_after_hash_free e b d Fits Rel V Len Fresh Sel).
  eexists. eexists. split; [reflexivity|]. split; [|split].
  - unfold seq_fresh in *. simpl. apply Forall_app. split.
    + eapply Forall_impl; [|exact Fresh]. simpl; intros; lia.
    + constructor; [simpl; lia|constructor].
  - eexists. simpl. split; reflexivity.
  - eexists. split; reflexivity.
Qed.

Lemma first_alone (eA : env) (bA : body) (eB : env) (bB : body) (d : db) :
  hasher_fits -> racing eA bA eB bB d ->
  let s := run [true; true; true]
               (mkSystem d (arrive eA bA) (arrive eB bB)) in
  winner_first eB bB d (shared s) (first s) (second s).
Proof.
  intros Fits (RelA & RelB & VA & VB & LenA & LenB & Same & Fresh & SelA & SelB).
  unfold run. cbn [fold_left].
  rewrite sys_first_arrive, sys_first_check by assumption.
  destruct (three_steps_alone eA bA d Fits RelA VA LenA Fresh SelA)
    as (dd & w & Step & Fr & St & Won).
  unfold system_step. cbn [shared first second]. rewrite Step.
  cbn [shared first second]. split; [assumption|].
  split; [now apply (winner_stored_same bA bB)|]. auto.
Qed.

Lemma second_alone (eA : env) (bA : body) (eB : env) (bB : body) (d : db) :
  hasher_fits -> racing eA bA eB bB d ->
  let s := run [false; false; false]
               (mkSystem d (arrive eA bA) (arrive eB bB)) in
  winner_first eA bA d (shared s) (second s) (first s).
Proof.
  intros Fits (RelA & RelB & VA & VB & LenA & LenB & Same & Fresh & SelA & SelB).
  unfold run. cbn [fold_left].
  rewrite sys_second_arrive, sys_second_check by assumption.
  destruct (three_steps_alone eB bB d Fits RelB VB LenB Fresh SelB)
    as (dd & w & Step & Fr & St & Won).
  unfold system_step. cbn [shared first second]. rewrite Step.
  cbn [shared first second]. split; [assumption|].
  split; [apply (winner_stored_same bB bA); [now symmetry|assumption]|]. auto.
Qed.

(** Three opening turns that are not all of one request leave both
    requests past their read-checks, with nothing stored yet. *)
Lemma mixed_opening (eA : env) (bA : body) (eB : env) (bB : body) (d : db)
    (t1 t2 t3 : bool) :
  racing eA bA eB bB d ->
  (t1 && t2 && t3 = false) -> (t1 || t2 || t3 = true) ->
  both_checked eA bA eB bB d
    (run [t1; t2; t3] (mkSystem d (arrive eA bA) (arrive eB bB))).
Proof.
  intros (RelA & RelB & VA & VB & _ & _ & _ & Fresh & SelA & SelB) NotAll Some1.
  unfold run. cbn [fold_left].
  destruct t1, t2, t3; try discriminate;
    rewrite ?sys_first_arrive, ?sys_second_arrive by assumption;
    rewrite ?sys_first_check, ?sys_second_check;
    rewrite ?sys_first_arrive, ?sys_second_arrive by assumption;
    (split; [exact Fresh|]); left; cbn [shared first second];
    (split; [reflexivity|]); unfold checked; auto.
Qed.

(** The rejection of the loser of a race, by the opening of the schedule. *)
Lemma race_rejection (eA : env) (bA : body) (eB : env) (bB : body) (d : db)
    (schedule : list bool) :
  hasher_fits -> racing eA bA eB bB d -> complete schedule ->
  let final := run schedule (mkSystem d (arrive eA bA) (arrive eB bB)) in
  match schedule with
  | true :: true :: true :: _ =>
      won (first final) /\ second final = turned_down_by_check eB bB
  | false :: false :: false :: _ =>
      won (second final) /\ first final = turned_down_by_check eA bA
  | _ =>
      (won (first final) /\ second final = turned_down_by_insert eB bB)
      \/ (won (second final) /\ first final = turned_down_by_insert eA bA)
  end.
Proof.
  intros Fits Race Comp final.
  destruct (race_outcome eA bA eB bB d schedule Fits Race Comp)
    as (rA & rB & _ & OA & OB & _). fold final in OA, OB.
  assert (NA : first final <> arrive eA bA)
    by (intro E; rewrite E in OA; discriminate).
  assert (NB : second final <> arrive eB bB)
    by (intro E; rewrite E in OB; discriminate).
  assert (CA : ~ checked eA bA (first final))
    by (intros [E|E]; rewrite E in OA; discriminate).
  assert (CB : ~ checked eB bB (second final))
    by (intros [E|E]; rewrite E in OB; discriminate).
  assert (Short : forall l : list bool, (List.length l < 3)%nat ->
                                        ~ complete l).
  { intros l L [C1 _].
    pose proof (count_occ_bound bool_dec true l). lia. }
  destruct schedule as [|t1 [|t2 [|t3 rest]]];
    try (exfalso; revert Comp; apply Short; simpl; lia).
  assert (Split : final = run rest (run [t1; t2; t3]
                                   (mkSystem d (arrive eA bA) (arrive eB bB))))
    by reflexivity.
  assert (Late : (t1 && t2 && t3 = false) -> (t1 || t2 || t3 = true) ->
                 (won (first final) /\ second final = turned_down_by_insert eB bB)
                 \/ (won (second final)
                     /\ first final = turned_down_by_insert eA bA)).
  { intros H1 H2.
    pose proof (both_checked_run eA bA eB bB d rest _ Fits Race
                  (mixed_opening eA bA eB bB d t1 t2 t3 Race H1 H2)) as B.
    rewrite <- Split in B. destruct B as [_ [(_ & C & _)|[(_ & W & L)|(_ & W & L)]]].
    - contradiction.
    - left. destruct L as [L|L]; [contradiction|auto].
    - right. destruct L as [L|L]; [contradiction|auto]. }
  destruct t1, t2, t3; try (apply Late; reflexivity).
  - pose proof (first_wins_early eA bA eB bB d rest _ Race
                  (first_alone eA bA eB bB d Fits Race)) as W.
    cbv zeta in W. rewrite <- Split in W.
    destruct W as (_ & _ & Won & [L|L]); [contradiction|auto].
  - pose proof (second_wins_early eA bA eB bB d rest _ Race
                  (second_alone eA bA eB bB d Fits Race)) as W.
    cbv zeta in W. rewrite <- Split in W.
    destruct W as (_ & _ & Won & [L|L]); [contradiction|auto].
Qed.

(** C5 (as the code has it).  A registration that passes validation and
    whose username or e-mail equals, up to case, that of a stored account
    is answered 400 by the read-check, with a message that names the
    conflicting field.  The losing side of two concurrent registrations of
    one username is answered 400 as well.  When the winner took its three
    steps before the loser's first, so that the loser's read-check ran
    after the winner's insert, the loser is turned down by its read-check,
    with the message naming [username], and sends nothing else.  In every
    other schedule both read-checks ran before either insert: the loser
    sent its insert, the store refused it, and the answer is "Username or
    email already exists", which singles out neither field. *)
Theorem duplicate_registration_message
    (e : env) (b : body) (d : db) (s : session)
    (eA : env) (bA : body) (eB : env) (bB : body) (d' : db)
    (schedule : list bool) :
  (lowercase_inv d -> validation b = None -> fault e 0 = false ->
   (exists r, In r (users d)
              /\ (LOWER (username r) = LOWER (Js.text (body_username b))
                  \/ LOWER (email r) = LOWER (Js.text (body_email b)))) ->
   exists (fld : string) (existing : user),
     In existing (users d)
     /\ fst (register e b (request d s))
        = reply 400 (error ("This " ++ fld ++ " is already registered"))
     /\ store (snd (register e b (request d s))) = d
     /\ ((fld = "username"
          /\ LOWER (username existing) = LOWER (Js.text (body_username b)))
         \/ (fld = "email"
             /\ LOWER (email existing) = LOWER (Js.text (body_email b))))
     /\ names_field fld (fst (register e b (request d s))) = true)
  /\ (hasher_fits -> racing eA bA eB bB d' -> complete schedule ->
      let final := run schedule (mkSystem d' (arrive eA bA) (arrive eB bB)) in
      match schedule with
      | true :: true :: true :: _ =>
          won (first final)
          /\ second final
             = mkClient eB
                 (Finished
                    (reply 400 (error "This username is already registered")))
                 no_session [read_check bB]
      | false :: false :: false :: _ =>
          won (second final)
          /\ first final
             = mkClient eA
                 (Finished
                    (reply 400 (error "This username is already registered")))
                 no_session [read_check bA]
      | _ =>
          (won (first final)
           /\ second final
              = mkClient eB
                  (Finished
                     (reply 400 (error "Username or email already exists")))
                  no_session
                  [read_check bB; Hash (Js.text (body_password bB));
                   insert_of eB bB])
          \/ (won (second final)
              /\ first final
                 = mkClient eA
                     (Finished
                        (reply 400 (error "Username or email already exists")))
                     no_session
                     [read_check bA; Hash (Js.text (body_password bA));
                      insert_of eA bA])
      end)
  /\ names_field "username" username_taken = true
  /\ names_field "username" username_or_email_exists = false
  /\ names_field "email" username_or_email_exists = false.
Proof.
  split; [apply register_conflict|].
  split; [|repeat split; reflexivity].
  exact (race_rejection eA bA eB bB d' schedule).
Qed.

(* ================================================================== *)
(** ** The port search *)

(** The search obeys the recursion of the source. *)
Lemma findAvailablePort_eq (listen : Z -> option Z) (FALLBACK_PORT startPort : Z) :
  findAvailablePort listen FALLBACK_PORT startPort
  = match listen startPort with
    | Some port => port
    | None =>
        if startPort <? FALLBACK_PORT + 10
        then findAvailablePort listen FALLBACK_PORT (startPort + 1)
        else FALLBACK_PORT
    end.
Proof.
  unfold findAvailablePort.
  destruct (startPort <? FALLBACK_PORT + 10) eqn:L.
  - apply Z.ltb_lt in L.
    replace (Z.to_nat (FALLBACK_PORT + 10 - startPort))
      with (S (Z.to_nat (FALLBACK_PORT + 10 - (startPort + 1)))) by lia.
    simpl. rewrite (proj2 (Z.ltb_lt _ _) L). reflexivity.
  - destruct (Z.to_nat _); simpl; rewrite L; reflexivity.
Qed.

Lemma probe_ports_result (listen : Z -> option Z) (FALLBACK_PORT : Z)
    (fuel : nat) (startPort : Z) :
  Z.to_nat (FALLBACK_PORT + 10 - startPort) = fuel ->
  let result := probe_ports listen FALLBACK_PORT fuel startPort in
  (exists p, startPort <= p <= Z.max startPort (FALLBACK_PORT + 10)
             /\ listen p = Some result
             /\ forall q, startPort <= q < p -> listen q = None)
  \/ ((forall q, startPort <= q <= Z.max startPort (FALLBACK_PORT + 10) ->
                 listen q = None)
      /\ result = FALLBACK_PORT).
Proof.
  revert startPort. induction fuel as [|fuel IH]; intros startPort F; simpl.
  - destruct (listen startPort) as [port|] eqn:L.
    + left. exists startPort. split; [lia|]. split; [exact L|].
      intros q Q; lia.
    + right. assert ((startPort <? FALLBACK_PORT + 10) = false) as ->
        by (apply Z.ltb_ge; lia).
      split; [|reflexivity]. intros q Q.
      replace q with startPort by lia. exact L.
  - destruct (listen startPort) as [port|] eqn:L.
    + left. exists startPort. split; [lia|]. split; [exact L|].
      intros q Q; lia.
    + assert ((startPort <? FALLBACK_PORT + 10) = true) as ->
        by (apply Z.ltb_lt; lia).
      destruct (IH (startPort + 1) ltac:(lia)) as [(p & R & Lp & Before)|[All Fb]].
      * left. exists p. split; [lia|]. split; [exact Lp|].
        intros q Q. destruct (Z.eq_dec q startPort) as [->|N];
          [exact L|apply Before; lia].
      * right. split; [|exact Fb]. intros q Q.
        destruct (Z.eq_dec q startPort) as [->|N]; [exact L|apply All; lia].
Qed.

(** X1.  The port search returns the first port, from [startPort] upwards
    and not beyond [FALLBACK_PORT + 10], on which the probe server came to
    listen; when none of them did (or [startPort] itself lies beyond the
    bound and is in use) it returns [FALLBACK_PORT]. *)
Theorem findAvailablePort_first_free
    (listen : Z -> option Z) (FALLBACK_PORT startPort : Z) :
  valid_search FALLBACK_PORT startPort ->
  let result := findAvailablePort listen FALLBACK_PORT startPort in
  (exists p, startPort <= p <= Z.max startPort (FALLBACK_PORT + 10)
             /\ listen p = Some result
             /\ forall q, startPort <= q < p -> listen q = None)
  \/ ((forall q, startPort <= q <= Z.max startPort (FALLBACK_PORT + 10) ->
                 listen q = None)
      /\ result = FALLBACK_PORT).
Proof. intros _. apply probe_ports_result. reflexivity. Qed.

(** X2.  The fallback is not probed again: when [startPort] is at most
    [FALLBACK_PORT] and every port from [startPort] to
    [FALLBACK_PORT + 10] is in use, the search returns [FALLBACK_PORT],
    a port it has itself found in use. *)
Theorem findAvailablePort_fallback_in_use
    (listen : Z -> option Z) (FALLBACK_PORT startPort : Z) :
  valid_search FALLBACK_PORT startPort ->
  startPort <= FALLBACK_PORT ->
  (forall q, startPort <= q <= FALLBACK_PORT + 10 -> listen q = None) ->
  findAvailablePort listen FALLBACK_PORT startPort = FALLBACK_PORT
  /\ listen (findAvailablePort listen FALLBACK_PORT startPort) = None.
Proof.
  intros _ Le Busy.
  destruct (probe_ports_result listen FALLBACK_PORT _ startPort eq_refl)
    as [(p & R & Lp & _)|[_ Fb]].
  - rewrite Busy in Lp by lia. discriminate.
  - unfold findAvailablePort. rewrite Fb. split; [reflexivity|].
    apply Busy. lia.
Qed.

(* ================================================================== *)
(** ** The schema at start-up *)

(** X3.  [initializeDatabase] never alters a table that exists, whatever
    fails; it answers [true] exactly when none of its three statements
    fails; and on a database without the table it leaves the empty table
    behind as soon as the first statement went through, also when it
    answers [false]. *)
Theorem initializeDatabase_keeps_accounts (e : env) (t : option db) (d : db) :
  snd (initializeDatabase e (Some d)) = Some d
  /\ (fst (initializeDatabase e t) = true
      <-> fault e 0 = false /\ fault e 1 = false /\ fault e 2 = false)
  /\ (fault e 0 = false -> snd (initializeDatabase e None) = Some empty_db)
  /\ (fault e 0 = true -> snd (initializeDatabase e t) = t).
Proof.
  unfold initializeDatabase.
  destruct (fault e 0), (fault e 1), (fault e 2); simpl;
    repeat split; try reflexivity; try discriminate; intuition discriminate.
Qed.


(* ================================================================== *)
(** ** Sessions across requests *)

Lemma profile_run (e : env) (d : db) (s : session) :
  profile e (request d s)
  = match userId s with
    | Some uid =>
        if uid =? 0
        then (reply 401 (error "Authentication required"), request d s)
        else
          let t := [Query (SelectProfile uid)] in
          if fault e 0
          then (reply 500 (error "Failed to load profile"), mkWorld d s t)
          else
            match select_profile uid d with
            | [] => (reply 404 (error "User account not found"), mkWorld d s t)
            | found :: _ => (profile_of e s found, mkWorld d s t)
            end
    | None => (reply 401 (error "Authentication required"), request d s)
    end.
Proof.
  unfold profile, request. cbn [sess].
  destruct (userId s) as [uid|]; simpl; [|reflexivity].
  destruct (uid =? 0); simpl; [reflexivity|].
  handler. destruct (fault e 0); simpl; [reflexivity|].
  destruct (select_profile uid d); reflexivity.
Qed.

(** X4.  A logout whose session removal goes through answers 200, leaves the
    table as it is and ends the session: the client's next profile request
    is answered 401, whatever the table holds.  This also holds for a
    client that was not logged in. *)
Theorem logout_ends_session (e1 e2 : env) (d : db) (s : session) :
  destroy_fails e1 = false ->
  fst (logout e1 (request d s))
  = reply 200 (JObj [("message", JStr "Logged out successfully")])
  /\ store (snd (logout e1 (request d s))) = d
  /\ profile e2 (next e1 e2 (snd (logout e1 (request d s))))
     = (reply 401 (error "Authentication required"), request d no_session).
Proof.
  intro H. unfold logout, next. rewrite H. simpl.
  destruct (now e1 + maxAge <=? now e2); repeat split.
Qed.

(* ================================================================== *)
(** ** What the routes leave alone *)

Lemma touch_fixed_columns (t : Z) (r : user) :
  fixed_columns (touch t r) = fixed_columns r.
Proof. reflexivity. Qed.

Lemma update_last_login_fixed_columns (t i : Z) (d : db) :
  map fixed_columns (users (update_last_login t i d))
  = map fixed_columns (users d).
Proof.
  unfold update_last_login; simpl. rewrite map_map. apply map_ext.
  intro r. destruct (id r =? i); reflexivity.
Qed.

Lemma insert_user_service_inv (t : Z) (u m p : string) (d : db) :
  service_inv d -> service_inv (snd (insert_user t u m p d)).
Proof.
  intros [Seq Rows]. unfold service_inv.
  pose proof (insert_user_seq t u m p d) as Mono. split; [lia|].
  destruct (insert_user_users t u m p d) as [E|(u' & m' & p' & _ & _ & _ & E)];
    rewrite E; [assumption|].
  apply Forall_app. split; [assumption|].
  constructor; [|constructor]. repeat split; simpl; auto.
Qed.

Lemma update_last_login_service_inv (t i : Z) (d : db) :
  service_inv d -> service_inv (update_last_login t i d).
Proof.
  intros [Seq Rows]. split; [exact Seq|]. simpl.
  apply Forall_map. eapply Forall_impl; [|exact Rows].
  intros r U. destruct (id r =? i); exact U.
Qed.

Lemma serve_service_inv (e : env) (o : route) (d : db) (s : session) :
  service_inv d -> service_inv (store (snd (serve e o (request d s)))).
Proof.
  intro I. destruct o as [b|b| |]; simpl.
  - destruct (register_store e b d s) as [E|[h E]]; rewrite E; [assumption|].
    now apply insert_user_service_inv.
  - destruct (login_store e b d s) as [E|[i E]]; rewrite E; [assumption|].
    now apply update_last_login_service_inv.
  - now rewrite logout_store.
  - now rewrite profile_store.
Qed.

Lemma reachable_service_inv (d : db) : reachable d -> service_inv d.
Proof.
  induction 1 as [|d e o s R IH].
  - split; [reflexivity|constructor].
  - now apply serve_service_inv.
Qed.

(** X5.  No route removes an account or rewrites its id, username, e-mail,
    password hash, creation time, [updated_at] or active flag: a request
    leaves these columns of all rows as they were and adds at most one row
    at the end; the id sequence never goes back. *)
Theorem accounts_are_append_only (e : env) (o : route) (d : db) (s : session) :
  let d' := store (snd (serve e o (request d s))) in
  exists added : list user,
    map fixed_columns (users d')
    = (map fixed_columns (users d) ++ map fixed_columns added)%list
    /\ (List.length added <= 1)%nat
    /\ users_id_seq d <= users_id_seq d'.
Proof.
  destruct o as [b|b| |]; simpl.
  - destruct (register_store e b d s) as [E|[h E]]; rewrite E.
    + exists []. rewrite app_nil_r. repeat split; [simpl; lia|lia].
    + pose proof (insert_user_seq (now e)
                  (Js.toLowerCase (Js.text (body_username b)))
                  (Js.toLowerCase (Js.text (body_email b))) h d) as Mono.
      destruct (insert_user_users (now e)
                  (Js.toLowerCase (Js.text (body_username b)))
                  (Js.toLowerCase (Js.text (body_email b))) h d)
        as [U|(u' & m' & p' & _ & _ & _ & U)]; rewrite U.
      * exists []. rewrite app_nil_r. repeat split; [simpl; lia|lia].
      * eexists [_]. rewrite map_app. repeat split; [simpl; lia|lia].
  - destruct (login_store e b d s) as [E|[i E]]; rewrite E.
    + exists []. rewrite app_nil_r. repeat split; [simpl; lia|lia].
    + exists []. rewrite app_nil_r, update_last_login_fixed_columns.
      repeat split; [simpl; lia|simpl; lia].
  - rewrite logout_store. exists []. rewrite app_nil_r.
    repeat split; [simpl; lia|lia].
  - rewrite profile_store. exists []. rewrite app_nil_r.
    repeat split; [simpl; lia|lia].
Qed.



(* ================================================================== *)
(** ** Outcomes of register and login *)

Lemma validation_shape (b : body) (r : response) :
  validation b = Some r ->
  status r = 400 /\ has_key "password" (payload r) = false.
Proof.
  unfold validation; intro H.
  repeat match type of H with
         | (if ?c then _ else _) = _ => destruct c
         end; inversion H; split; reflexivity.
Qed.

Lemma conflict_shape (existing : user) (name : string) :
  status (conflict existing name) = 400
  /\ has_key "password" (payload (conflict existing name)) = false.
Proof. split; reflexivity. Qed.

(** All the ways a register request can end. *)
Lemma register_cases (e : env) (b : body) (d : db) (s : session) :
  let out := register e b (request d s) in
  (status (fst out) = 400
   /\ has_key "password" (payload (fst out)) = false
   /\ users (store (snd out)) = users d /\ sess (snd out) = s)
  \/ (fst out = reply 500 (error "Registration failed due to server error")
      /\ users (store (snd out)) = users d /\ sess (snd out) = s)
  \/ (exists u : user,
        fst out = registered u
        /\ users (store (snd out)) = (users d ++ [u])%list
        /\ id u = users_id_seq d
        /\ sess (snd out) = new_session e u).
Proof.
  destruct (validation b) as [r0|] eqn:V.
  { left. unfold register, try_catch, register_body. rewrite V. simpl.
    destruct (validation_shape b r0 V). auto. }
  destruct (fault e 0) eqn:F.
  { right. left. unfold register, try_catch, register_body. rewrite V.
    handler. rewrite F. simpl. auto. }
  simpl. rewrite (register_run e b d s V F). simpl.
  destruct (select_by_username_or_email _ _ d) as [|x xs].
  2:{ left. simpl. auto. }
  destruct (fault e 1).
  { right. left. simpl. auto. }
  destruct (insert_user _ _ _ _ d) as [[err|[|nu rows]] d'] eqn:Ins.
  - assert (U : users d' = users d).
    { revert Ins. unfold insert_user.
      destruct (varchar 50 _); [|intro H; inversion H; reflexivity].
      destruct (varchar 100 _); [|intro H; inversion H; reflexivity].
      destruct (varchar 255 _); [|intro H; inversion H; reflexivity].
      destruct (existsb _ _); intro H; inversion H; reflexivity. }
    unfold register_catch.
    destruct (err_code err) as [c|]; [destruct (String.eqb c "23505")|];
      simpl; auto.
  - apply insert_user_stored in Ins.
    destruct Ins as (? & ? & ? & _ & _ & _ & _ & Rows & _). discriminate.
  - apply insert_user_stored in Ins.
    destruct Ins as (u' & m' & p' & _ & _ & _ & _ & Rows & D').
    inversion Rows; subst nu rows. subst d'. right. right.
    eexists. simpl. repeat split.
Qed.

(** All the ways a login request can end. *)
Lemma login_cases (e : env) (b : body) (d : db) (s : session) :
  let out := login e b (request d s) in
  ((fst out = reply 400 (error "Username and password are required")
    \/ fst out = invalid_credentials
    \/ fst out = reply 500 (error "Login failed due to server error"))
   /\ store (snd out) = d /\ sess (snd out) = s)
  \/ (exists (u : user) (others : list user),
        select_active_by_username (Js.text (body_username b)) d = u :: others
        /\ bcrypt_compare (Js.text (body_password b)) (password u) = true
        /\ fst out = logged_in u
        /\ store (snd out) = update_last_login (now e) (id u) d
        /\ sess (snd out) = new_session e u).
Proof.
  destruct (Js.truthy (body_username b)) eqn:U.
  2:{ left. simpl. rewrite (login_missing_fields e b _ (or_introl U)). auto. }
  destruct (Js.truthy (body_password b)) eqn:P.
  2:{ left. simpl. rewrite (login_missing_fields e b _ (or_intror P)). auto. }
  destruct (fault e 0) eqn:F.
  { left. unfold login, try_catch, login_body. rewrite U, P; simpl.
    handler. rewrite F. simpl. auto. }
  simpl. rewrite (login_lookup e b d s U P F). simpl.
  destruct (select_active_by_username _ d) as [|u others] eqn:Found.
  { left. simpl. auto. }
  destruct (bcrypt_compare _ _) eqn:Ok.
  2:{ left. simpl. auto. }
  destruct (fault e 1).
  { left. simpl. auto. }
  right. exists u, others. simpl. auto.
Qed.

(** X8.  A register request changes the session only when it is answered
    201, and then binds it to the new account; answered anything else it
    leaves the session and the accounts of the table as they were. *)
Theorem register_session_only_on_success
    (e : env) (b : body) (d : db) (s : session) :
  let out := register e b (request d s) in
  (status (fst out) <> 201 ->
     sess (snd out) = s /\ users (store (snd out)) = users d)
  /\ (status (fst out) = 201 ->
      userId (sess (snd out)) = Some (users_id_seq d)
      /\ user_field "id" (fst out) = Some (JNum (users_id_seq d))
      /\ loginTime (sess (snd out)) = Some (now e)).
Proof.
  destruct (register_cases e b d s)
    as [(S4 & _ & U & Se)|[(R5 & U & Se)|(u & R & U & Id & Se)]]; simpl in *.
  - split; [auto|]. intro H. congruence.
  - split; [auto|]. rewrite R5. intro H. discriminate.
  - split; [rewrite R; intro H; contradiction H; reflexivity|].
    intros _. rewrite Se, R. simpl. rewrite Id.
    split; [reflexivity|]. split; [|reflexivity].
    unfold user_field, registered. simpl. now rewrite Id.
Qed.

(** X9.  A login request answered anything but 200 changes neither the
    table nor the session; one answered 200 was given the password that
    verifies against the stored hash of an active account whose username
    equals the given one up to case, and binds the session to it. *)
Theorem login_only_with_verified_password
    (e : env) (b : body) (d : db) (s : session) :
  let out := login e b (request d s) in
  (status (fst out) <> 200 -> store (snd out) = d /\ sess (snd out) = s)
  /\ (status (fst out) = 200 ->
      exists u : user,
        In u (users d)
        /\ is_active u = true
        /\ LOWER (username u) = LOWER (Js.text (body_username b))
        /\ bcrypt_compare (Js.text (body_password b)) (password u) = true
        /\ userId (sess (snd out)) = Some (id u)).
Proof.
  destruct (login_cases e b d s)
    as [([R|[R|R]] & St & Se)|(u & others & Found & Ok & R & St & Se)];
    simpl in *.
  1-3: split; [auto|]; rewrite R; intro H; discriminate.
  split; [rewrite R; intro H; contradiction H; reflexivity|].
  intros _. exists u.
  assert (I : In u (select_active_by_username (Js.text (body_username b)) d))
    by (rewrite Found; now left).
  unfold select_active_by_username in I. apply filter_In in I.
  destruct I as [I Q]. apply andb_true_iff in Q. destruct Q as [Q A].
  apply String.eqb_eq in Q. rewrite Se. auto.
Qed.

(** X10.  An account that is not active cannot log in and is not told
    apart from an unknown one: when every account with the given username
    (up to case) is inactive, the login is answered 401 with the message
    of invalid credentials, and the password is not even compared. *)
Theorem inactive_account_cannot_login
    (e : env) (b : body) (d : db) (s : session) :
  Js.truthy (body_username b) = true ->
  Js.truthy (body_password b) = true ->
  fault e 0 = false ->
  (forall r, In r (users d) ->
             LOWER (username r) = LOWER (Js.text (body_username b)) ->
             is_active r = false) ->
  login e b (request d s)
  = (reply 401 (error "Invalid username or password"),
     mkWorld d s [Query (SelectActiveUserByUsername
                           (Js.text (body_username b)))]).
Proof.
  intros U P F Inactive.
  rewrite (login_lookup e b d s U P F). simpl.
  unfold select_active_by_username. rewrite filter_none; [reflexivity|].
  intros r I.
  destruct (String.eqb (LOWER (username r)) _) eqn:Q; [|reflexivity].
  apply String.eqb_eq in Q. now rewrite (Inactive r I Q).
Qed.

Lemma profile_of_no_password (e : env) (s : session) (r : row) :
  has_key "password" (payload (profile_of e s r)) = false.
Proof.
  unfold profile_of. simpl.
  destruct (last_login (cols r)), (total_users r); reflexivity.
Qed.

Lemma logged_in_no_password (u : user) :
  has_key "password" (payload (logged_in u)) = false.
Proof. unfold logged_in. simpl. destruct (last_login u); reflexivity. Qed.

(** X11.  The responses of the four routes: register answers 201, 400 or
    500, login 200, 400, 401 or 500, logout 200 or 500, profile 200, 401,
    404 or 500; and no response holds a [password] key, also not those
    built from a row that was read with its password hash. *)
Theorem responses_of_the_routes (e : env) (o : route) (d : db) (s : session) :
  let r := fst (serve e o (request d s)) in
  In (status r)
     match o with
     | PostRegister _ => [201; 400; 500]
     | PostLogin _ => [200; 400; 401; 500]
     | PostLogout => [200; 500]
     | GetProfile => [200; 401; 404; 500]
     end
  /\ has_key "password" (payload r) = false.
Proof.
  destruct o as [b|b| |]; simpl.
  - destruct (register_cases e b d s)
      as [(S4 & K & _)|[(R5 & _)|(u & R & _)]]; simpl in *.
    + rewrite S4. auto.
    + rewrite R5. simpl. auto.
    + rewrite R. simpl. auto.
  - destruct (login_cases e b d s)
      as [([R|[R|R]] & _)|(u & others & _ & _ & R & _)];
      simpl in *; rewrite R; try (simpl; auto 6).
    split; [simpl; auto|apply logged_in_no_password].
  - unfold logout. destruct (destroy_fails e); simpl; auto.
  - rewrite profile_run.
    destruct (userId s) as [uid|]; [|simpl; auto 6].
    destruct (uid =? 0); [simpl; auto 6|].
    simpl. destruct (fault e 0); [simpl; auto 6|].
    destruct (select_profile uid d) as [|found rest]; [simpl; auto 6|].
    split; [simpl; auto|apply profile_of_no_password].
Qed.

(** X12.  An e-mail address of more than 100 characters passes the
    validation of register, but the [VARCHAR(100)] column refuses it: the
    registration is answered 500, no account is stored and no session is
    established. *)
Theorem long_email_is_a_server_error
    (e : env) (b : body) (d : db) (s : session) :
  validation b = None ->
  (100 < String.length (Js.text (body_email b)))%nat ->
  select_by_username_or_email
    (Js.toLowerCase (Js.text (body_username b)))
    (Js.toLowerCase (Js.text (body_email b))) d = [] ->
  fault e 0 = false -> fault e 1 = false ->
  fst (register e b (request d s))
  = reply 500 (error "Registration failed due to server error")
  /\ users (store (snd (register e b (request d s)))) = users d
  /\ sess (snd (register e b (request d s))) = s.
Proof.
  intros V Long Sel F0 F1.
  rewrite (register_run e b d s V F0). simpl. rewrite Sel, F1.
  pose proof (validation_passed b V) as (_ & _ & _ & [_ L] & Em & _).
  unfold insert_user.
  rewrite (varchar_fits 50) by (rewrite toLowerCase_length; exact L).
  assert (N : varchar 100 (Js.toLowerCase (Js.text (body_email b))) = None).
  { unfold varchar.
    assert ((String.length (Js.toLowerCase (Js.text (body_email b)))
             <=? 100)%nat = false) as ->
      by (apply Nat.leb_gt; now rewrite toLowerCase_length).
    rewrite spaceless_excess; [reflexivity| |now rewrite toLowerCase_length].
    rewrite toLowerCase_spaceless. now apply email_spaceless. }
  rewrite N. simpl. repeat split.
Qed.

(* ================================================================== *)
(** ** From a session to the profile *)

Lemma round_seconds_nearest (ms : Z) :
  1000 * Js.round_seconds ms - 500 <= ms < 1000 * Js.round_seconds ms + 500.
Proof.
  unfold Js.round_seconds.
  pose proof (Z.div_mod (ms + 500) 1000 ltac:(lia)).
  pose proof (Z.mod_pos_bound (ms + 500) 1000 ltac:(lia)). lia.
Qed.

(** X13.  After a registration answered 201 in a table the service brought
    about, the client's next profile request, made before the session
    cookie has run out (within 24 hours), is answered 200 with the new
    account: the id, the lowercased username and e-mail, the time of
    registration, no last login yet, a count of accounts one higher than
    before, and as session duration the time since the registration
    rounded to the nearest second.  Made after the cookie has run out, it
    is answered 401. *)
Theorem register_then_profile
    (e1 e2 : env) (b : body) (d : db) (s : session)
    (r : response) (w : world) :
  reachable d ->
  register e1 b (request d s) = (r, w) ->
  status r = 201 ->
  fault e2 0 = false ->
  let elapsed := Js.round_seconds (now e2 - now e1) in
  (now e1 <= now e2 < now e1 + maxAge ->
   fst (profile e2 (next e1 e2 w))
   = reply 200
       (JObj [("user",
               JObj [("id", JNum (users_id_seq d));
                     ("username",
                      JStr (Js.toLowerCase (Js.text (body_username b))));
                     ("email", JStr (Js.toLowerCase (Js.text (body_email b))));
                     ("created_at", JDate (now e1));
                     ("last_login", JNull);
                     ("session_duration", JNum elapsed)]);
              ("stats",
               JObj [("total_users",
                      JNum (Z.of_nat (S (List.length (users d)))))])])
   /\ 0 <= elapsed
   /\ 1000 * elapsed - 500 <= now e2 - now e1 < 1000 * elapsed + 500)
  /\ (now e1 + maxAge < now e2 ->
      fst (profile e2 (next e1 e2 w))
      = reply 401 (JObj [("error", JStr "Authentication required")])).
Proof.
  intros R Run Ok F elapsed.
  split.
  2:{ intro Late. unfold next.
      assert ((now e1 + maxAge <=? now e2) = true) as ->
        by (apply Z.leb_le; lia).
      unfold profile, request. reflexivity. }
  intro Soon.
  split; [|split; [|apply round_seconds_nearest]].
  2:{ pose proof (round_seconds_nearest (now e2 - now e1)).
      fold elapsed in H. lia. }
  destruct (register_created e1 b d s r w Run Ok)
    as (_ & _ & p & _ & _ & _ & St & Se).
  destruct (reachable_service_inv d R) as [Seq _].
  destruct (reachable_inv d R) as (_ & Fresh & _).
  unfold next.
  assert ((now e1 + maxAge <=? now e2) = false) as ->
    by (apply Z.leb_gt; lia).
  rewrite St, Se, profile_run. simpl.
  assert ((users_id_seq d =? 0) = false) as -> by (apply Z.eqb_neq; lia).
  rewrite F. unfold select_profile. simpl.
  rewrite filter_app. simpl. rewrite Z.eqb_refl. simpl.
  rewrite filter_none.
  - simpl. unfold profile_of, sessionDuration. simpl.
    rewrite length_app. simpl. rewrite Nat.add_1_r. reflexivity.
  - intros x I. unfold seq_fresh in Fresh. rewrite Forall_forall in Fresh.
    specialize (Fresh x I). simpl in Fresh.
    assert ((id x =? users_id_seq d) = false) as -> by (apply Z.eqb_neq; lia).
    reflexivity.
Qed.

(** X14.  After a login answered 200 in a table the service brought
    about, the client's next profile request, made before the session
    cookie has run out (within 24 hours), is answered 200 with the same
    account, and its [last_login] is the time of this login (the login
    response itself still showed the previous value). *)
Theorem login_then_profile
    (e1 e2 : env) (b : body) (d : db) (s : session)
    (r : response) (w : world) :
  reachable d ->
  login e1 b (request d s) = (r, w) ->
  status r = 200 ->
  fault e2 0 = false ->
  now e1 <= now e2 < now e1 + maxAge ->
  exists u : user,
    In u (users d)
    /\ user_field "id" r = Some (JNum (id u))
    /\ user_field "lastLogin" r = Some (json_date (last_login u))
    /\ status (fst (profile e2 (next e1 e2 w))) = 200
    /\ user_field "id" (fst (profile e2 (next e1 e2 w)))
       = Some (JNum (id u))
    /\ user_field "last_login" (fst (profile e2 (next e1 e2 w)))
       = Some (JDate (now e1))
    /\ field "stats" (payload (fst (profile e2 (next e1 e2 w))))
       = Some (JObj [("total_users",
                      JNum (Z.of_nat (List.length (users d))))]).
Proof.
  intros R Run Ok F Soon.
  pose proof (login_cases e1 b d s) as C. simpl in C. rewrite Run in C.
  simpl in C.
  destruct C as [([E|[E|E]] & _)|(u & others & Found & _ & Resp & St & Se)];
    try (rewrite E in Ok; discriminate).
  assert (I : In u (select_active_by_username (Js.text (body_username b)) d))
    by (rewrite Found; now left).
  unfold select_active_by_username in I. apply filter_In in I.
  destruct I as [I Q]. apply andb_true_iff in Q. destruct Q as [_ Act].
  destruct (reachable_service_inv d R) as [_ Rows].
  rewrite Forall_forall in Rows. destruct (Rows u I) as (Pos & _).
  pose proof (update_last_login_inv (now e1) (id u) d (reachable_inv d R))
    as (_ & _ & Ids & _).
  exists u. split; [exact I|]. rewrite Resp.
  split; [reflexivity|]. split; [reflexivity|].
  unfold next.
  assert ((now e1 + maxAge <=? now e2) = false) as ->
    by (apply Z.leb_gt; lia).
  rewrite St, Se, profile_run. simpl.
  assert ((id u =? 0) = false) as -> by (apply Z.eqb_neq; lia).
  rewrite F. unfold select_profile.
  rewrite (filter_unique id _ (users (update_last_login (now e1) (id u) d))
             (touch (now e1) u) Ids).
  - simpl. rewrite length_map. repeat split.
  - simpl. apply in_map_iff. exists u. now rewrite Z.eqb_refl.
  - simpl. now rewrite Z.eqb_refl, Act.
  - intros x Px. apply andb_true_iff in Px. destruct Px as [Px _].
    now apply Z.eqb_eq in Px.
Qed.

(* ================================================================== *)
(** ** The e-mail addresses the register handler accepts *)

Lemma matches_nil_nullable (r : Js.regex) (s : string) :
  matches r s -> s = "" -> Js.nullable r = true.
Proof.
  induction 1 as [|p c P|r1 r2 s1 s2 _ IH1 _ IH2|r1 r2 s _ IH|r1 r2 s _ IH
                  |r|r s1 s2 _ _ _ _]; intro E; simpl; try reflexivity.
  - discriminate.
  - destruct s1; [|discriminate]. simpl in E.
    now rewrite IH1, IH2.
  - now rewrite IH.
  - rewrite IH by assumption. apply orb_true_r.
Qed.

Lemma nullable_matches_nil (r : Js.regex) :
  Js.nullable r = true -> matches r "".
Proof.
  induction r; simpl; intro H; try discriminate.
  - constructor.
  - apply andb_true_iff in H. destruct H as [H1 H2].
    change "" with ("" ++ ""). constructor; auto.
  - apply orb_true_iff in H. destruct H as [H|H];
      [apply matches_alt_l|apply matches_alt_r]; auto.
  - constructor.
Qed.

Lemma matches_deriv (r : Js.regex) (cs : string) :
  matches r cs ->
  forall c s, cs = String c s -> matches (Js.deriv c r) s.
Proof.
  induction 1 as [|p c0 P|r1 r2 s1 s2 M1 IH1 M2 IH2|r1 r2 s0 _ IH
                  |r1 r2 s0 _ IH|r|r s1 s2 M1 IH1 M2 IH2];
    intros c s E; simpl.
  - discriminate.
  - inversion E; subst. rewrite P. constructor.
  - destruct s1 as [|c1 s1'].
    + simpl in E. rewrite (matches_nil_nullable r1 "" M1 eq_refl).
      apply matches_alt_r. now apply IH2.
    + simpl in E. inversion E; subst.
      assert (C : matches (Js.Cat (Js.deriv c r1) r2) (s1' ++ s2))
        by (constructor; [now apply IH1|assumption]).
      destruct (Js.nullable r1); [now apply matches_alt_l|assumption].
  - apply matches_alt_l. now apply IH.
  - apply matches_alt_r. now apply IH.
  - discriminate.
  - destruct s1 as [|c1 s1'].
    + simpl in E. now apply IH2.
    + simpl in E. inversion E; subst. constructor; [now apply IH1|assumption].
Qed.

Lemma deriv_matches (c : ascii) (r : Js.regex) :
  forall s, matches (Js.deriv c r) s -> matches r (String c s).
Proof.
  induction r as [| |p|r1 IH1 r2 IH2|r1 IH1 r2 IH2|r IH]; simpl; intros s M.
  - inversion M.
  - inversion M.
  - destruct (p c) eqn:P; inversion M; subst. now constructor.
  - assert (L : forall t, matches (Js.Cat (Js.deriv c r1) r2) t ->
                          matches (Js.Cat r1 r2) (String c t)).
    { intros t Mt. inversion Mt; subst.
      change (String c (s1 ++ s2)) with (String c s1 ++ s2).
      constructor; auto. }
    destruct (Js.nullable r1) eqn:N; [|now apply L].
    inversion M; subst; [now apply L|].
    change (String c s) with ("" ++ String c s).
    constructor; [now apply nullable_matches_nil|auto].
  - inversion M; subst;
      [apply matches_alt_l|apply matches_alt_r]; auto.
  - inversion M; subst.
    change (String c (s1 ++ s2)) with (String c s1 ++ s2).
    constructor; auto.
Qed.

(** The matcher decides the language of the expression. *)
Lemma test_matches (s : string) :
  forall r, Js.test r s = true <-> matches r s.
Proof.
  induction s as [|c t IH]; intro r; simpl.
  - split; [apply nullable_matches_nil|].
    intro M. now apply (matches_nil_nullable r "").
  - rewrite IH. split; [apply deriv_matches|].
    intro M. now apply (matches_deriv r (String c t)).
Qed.

Lemma matches_star_class (p : ascii -> bool) (s : string) :
  matches (Js.Star (Js.Class p)) s <-> all_chars p s = true.
Proof.
  split.
  - intro M. remember (Js.Star (Js.Class p)) as r eqn:E.
    induction M as [| | | | | |r s1 s2 M1 _ M2 IH2]; try discriminate;
      [reflexivity|].
    inversion E; subst. inversion M1; subst. simpl.
    rewrite IH2 by reflexivity.
    match goal with P : p _ = true |- _ => now rewrite P end.
  - induction s as [|c t IH]; simpl; intro A; [constructor|].
    apply andb_true_iff in A. destruct A as [Pc At].
    change (String c t) with (String c "" ++ t).
    constructor; [now constructor|auto].
Qed.

Lemma matches_plus_class (s : string) :
  matches (Js.Plus (Js.Class Js.not_space_at)) s <-> address_part s.
Proof.
  unfold Js.Plus, address_part. split.
  - intro M. inversion M as [| |? ? s1 s2 M1 M2| | | |]; subst.
    inversion M1 as [|? c P| | | | |]; subst.
    apply matches_star_class in M2. simpl. split; [discriminate|].
    now rewrite P, M2.
  - intros [N A]. destruct s as [|c t]; [contradiction|].
    simpl in A. apply andb_true_iff in A. destruct A as [Pc At].
    change (String c t) with (String c "" ++ t).
    constructor; [now constructor|now apply matches_star_class].
Qed.

Lemma matches_lit (c : ascii) (s : string) :
  matches (Js.Lit c) s <-> s = String c "".
Proof.
  unfold Js.Lit. split.
  - intro M. inversion M as [|? c0 P| | | | |]; subst.
    apply Ascii.eqb_eq in P. now subst.
  - intros ->. constructor. apply Ascii.eqb_refl.
Qed.

(** X15.  The addresses that pass the e-mail check of register are exactly
    the strings [local@domain.tld] whose three parts are non-empty and hold
    neither whitespace nor [@] (the domain part may itself contain
    dots). *)
Theorem accepted_email_addresses (s : string) :
  Js.test Js.emailRegex s = true
  <-> exists local domain tld : string,
        s = local ++ "@" ++ domain ++ "." ++ tld
        /\ address_part local /\ address_part domain /\ address_part tld.
Proof.
  rewrite test_matches. unfold Js.emailRegex. split.
  - intro M.
    inversion M as [| |? ? a rest1 Ma M1| | | |]; subst.
    inversion M1 as [| |? ? at_ rest2 Mat M2| | | |]; subst.
    inversion M2 as [| |? ? b rest3 Mb M3| | | |]; subst.
    inversion M3 as [| |? ? dot c Mdot Mc| | | |]; subst.
    apply matches_lit in Mat, Mdot. subst.
    apply matches_plus_class in Ma, Mb, Mc.
    exists a, b, c. auto.
  - intros (a & b & c & -> & A & B & C).
    apply matches_plus_class in A, B, C.
    repeat (constructor; try assumption); now apply matches_lit.
Qed.

(* ================================================================== *)
(** ** What reaches the store *)

Lemma login_trace_no_insert (e : env) (b : body) (d : db) (s : session)
    (u m p : string) :
  ~ In (Query (InsertUser u m p)) (trace (snd (login e b (request d s)))).
Proof.
  destruct (Js.truthy (body_username b)) eqn:U.
  2:{ rewrite (login_missing_fields e b _ (or_introl U)). intros []. }
  destruct (Js.truthy (body_password b)) eqn:P.
  2:{ rewrite (login_missing_fields e b _ (or_intror P)). intros []. }
  destruct (fault e 0) eqn:F.
  { unfold login, try_catch, login_body. rewrite U, P; simpl.
    handler. rewrite F. simpl. intros [H|[]]. discriminate. }
  rewrite (login_lookup e b d s U P F). simpl.
  destruct (select_active_by_username _ d) as [|x xs]; simpl.
  { intros [H|[]]. discriminate. }
  destruct (bcrypt_compare _ _); simpl.
  2:{ intros [H|[H|[]]]; discriminate. }
  destruct (fault e 1); simpl; intros [H|[H|[H|[]]]]; discriminate.
Qed.

(** X16.  The only statement that writes a password column is the insert
    of register, and what it carries is the output of bcrypt for the given
    password at the configured cost (12 when none is configured), never
    the password itself; the usernames and e-mail addresses it carries are
    lowercased.  Login, logout and profile send no insert. *)
Theorem store_receives_only_the_hash
    (e : env) (o : route) (d : db) (s : session) (u m p : string) :
  In (Query (InsertUser u m p)) (trace (snd (serve e o (request d s)))) ->
  exists b : body,
    o = PostRegister b
    /\ u = Js.toLowerCase (Js.text (body_username b))
    /\ m = Js.toLowerCase (Js.text (body_email b))
    /\ p = bcrypt_hash (Js.text (body_password b)) (saltRounds e) (salt e)
    /\ (BCRYPT_ROUNDS e = None -> saltRounds e = 12).
Proof.
  destruct o as [b|b| |]; simpl.
  - intro I. exists b. split; [reflexivity|].
    revert I.
    destruct (validation b) as [r0|] eqn:V.
    { unfold register, try_catch, register_body. rewrite V. intros []. }
    destruct (fault e 0) eqn:F.
    { unfold register, try_catch, register_body. rewrite V.
      handler. rewrite F; simpl. intros [E|[]]. discriminate. }
    rewrite (register_run e b d s V F). simpl.
    assert (T : forall (r : response) (w : db) (x : session),
      In (Query (InsertUser u m p))
         (trace (snd (r, mkWorld w x
            [Query (SelectUserByUsernameOrEmail
                      (Js.toLowerCase (Js.text (body_username b)))
                      (Js.toLowerCase (Js.text (body_email b))));
             Hash (Js.text (body_password b));
             Query (InsertUser (Js.toLowerCase (Js.text (body_username b)))
                               (Js.toLowerCase (Js.text (body_email b)))
                               (bcrypt_hash (Js.text (body_password b))
                                            (saltRounds e) (salt e)))]))) ->
      u = Js.toLowerCase (Js.text (body_username b))
      /\ m = Js.toLowerCase (Js.text (body_email b))
      /\ p = bcrypt_hash (Js.text (body_password b)) (saltRounds e) (salt e)).
    { simpl. intros r w x [E|[E|[E|[]]]]; try discriminate.
      inversion E. auto. }
    destruct (select_by_username_or_email _ _ d).
    2:{ simpl. intros [E|[]]. discriminate. }
    intro I.
    assert (G : u = Js.toLowerCase (Js.text (body_username b))
                /\ m = Js.toLowerCase (Js.text (body_email b))
                /\ p = bcrypt_hash (Js.text (body_password b))
                                   (saltRounds e) (salt e)).
    { revert I. destruct (fault e 1); [apply T|].
      destruct (insert_user _ _ _ _ d) as [[err|[|nu rows]] d']; apply T. }
    destruct G as (Gu & Gm & Gp). repeat split; try assumption.
    unfold saltRounds. now intros ->.
  - intro I. exfalso. exact (login_trace_no_insert e b d s u m p I).
  - unfold logout. destruct (destroy_fails e); intros [].
  - rewrite profile_run.
    destruct (userId s) as [uid|]; [|intros []].
    destruct (uid =? 0); [intros []|]. simpl.
    destruct (fault e 0); [intros [H|[]]; discriminate|].
    destruct (select_profile uid d); intros [H|[]]; discriminate.
Qed.

End Server.

(* ================================================================== *)
(** ** The handlers at work on sample data *)

Lemma substring_length_le (n : nat) (s : string) :
  (String.length (substring 0 n s) <= n)%nat.
Proof.
  revert s; induction n as [|n IH]; intros [|c t]; simpl; try lia.
  specialize (IH t). lia.
Qed.

Lemma ref_hasher_sound : hasher_sound ref_hash ref_compare.
Proof. intros p rounds s. apply String.eqb_refl. Qed.

Lemma ref_hasher_fits : hasher_fits ref_hash.
Proof.
  intros p rounds s. unfold ref_hash.
  change (S (S (S (S (String.length (substring 0 72 p))))) <= 255)%nat.
  pose proof (substring_length_le 72 p). lia.
Qed.

Example email_shapes :
  map (Js.test Js.emailRegex)
      ["alice@x.com"; "a@b"; "a b@c.d"; "a@b.c.d"; "a@@b.c"; "a@b."; "a@.b";
       "@a.b"; "a@b..c"]
  = [true; false; false; true; false; false; false; false; true].
Proof. reflexivity. Qed.

Example register_alice :
  register ref_hash (clock 1000) alice_body (request empty_db no_session)
  = (registered alice_row,
     mkWorld alice_db alice_session
       [Query (SelectUserByUsernameOrEmail "alice" "alice@x.com");
        Hash "secret1";
        Query (InsertUser "alice" "alice@x.com" "$2b$secret1")]).
Proof. reflexivity. Qed.

Lemma register_then_login_witness :
  let w1 := snd (register ref_hash (clock 1000) alice_body
                          (request empty_db no_session)) in
  let again := login ref_compare (clock 2000)
                     (mkBody (Some "ALICE") None (Some "secret1"))
                     (request (store w1) no_session) in
  status (fst again) = 200
  /\ exists i : Z,
       user_field "id" (fst (register ref_hash (clock 1000) alice_body
                                      (request empty_db no_session)))
       = Some (JNum i)
       /\ user_field "id" (fst again) = Some (JNum i)
       /\ userId (sess (snd again)) = Some i.
Proof.
  apply (register_then_login ref_hash ref_compare (clock 1000) (clock 2000)
           alice_body empty_db no_session no_session
           (fst (register ref_hash (clock 1000) alice_body
                          (request empty_db no_session)))
           (snd (register ref_hash (clock 1000) alice_body
                          (request empty_db no_session)))
           "ALICE" None).
  - exact ref_hasher_sound.
  - exact ref_hasher_fits.
  - constructor.
  - reflexivity.
  - reflexivity.
  - reflexivity.
  - reflexivity.
  - reflexivity.
Defined.

Lemma login_failures_indistinguishable_witness :
  fst (login ref_compare (clock 2000) bob_login (request alice_db no_session))
  = fst (login ref_compare (clock 2000) alice_wrong_password
               (request alice_db no_session)).
Proof.
  apply (login_failures_indistinguishable ref_compare (clock 2000) (clock 2000)
           bob_login alice_wrong_password alice_db alice_db
           no_session no_session alice_row []); reflexivity.
Defined.

(** C3, counterexample.  Alice's password is verified, the last-login
    update fails, and the login is answered 500 without a session. *)
Lemma login_fails_when_update_fails :
  let e := second_call_fails 2000 in
  let out := login ref_compare e alice_login (request alice_db no_session) in
  select_active_by_username "alice" alice_db = [alice_row]
  /\ ref_compare "secret1" (password alice_row) = true
  /\ trace (snd out)
     = [Query (SelectActiveUserByUsername "alice");
        Compare "secret1" "$2b$secret1";
        Query (UpdateLastLogin 1)]
  /\ fault e 1 = true
  /\ fst out = reply 500 (error "Login failed due to server error")
  /\ status (fst out) <> 200
  /\ sess (snd out) = no_session.
Proof. repeat split. discriminate. Qed.

Lemma login_depends_on_last_login_update_witness :
  fst (login ref_compare (second_call_fails 2000) alice_login
             (request alice_db no_session))
  = reply 500 (error "Login failed due to server error")
  /\ status (fst (login ref_compare (clock 2000) alice_login
                        (request alice_db no_session))) = 200.
Proof.
  split.
  - apply (login_depends_on_last_login_update ref_compare
             (second_call_fails 2000) alice_login alice_db no_session
             alice_row []); reflexivity.
  - apply (login_depends_on_last_login_update ref_compare
             (clock 2000) alice_login alice_db no_session
             alice_row []); reflexivity.
Defined.

Lemma login_reports_previous_last_login_witness :
  exists (u : user) (others : list user),
    select_active_by_username "alice" alice_db = u :: others
    /\ In u (users alice_db)
    /\ user_field "id"
         (fst (login ref_compare (clock 2000) alice_login
                     (request alice_db no_session)))
       = Some (JNum (id u))
    /\ user_field "lastLogin"
         (fst (login ref_compare (clock 2000) alice_login
                     (request alice_db no_session)))
       = Some (json_date (last_login u))
    /\ (forall u',
          In u' (users (store (snd (login ref_compare (clock 2000) alice_login
                                          (request alice_db no_session))))) ->
          id u' = id u -> last_login u' = Some 2000).
Proof.
  apply (login_reports_previous_last_login ref_compare (clock 2000)
           alice_login alice_db no_session); reflexivity.
Defined.

Example first_login_reports_null :
  user_field "lastLogin"
    (fst (login ref_compare (clock 2000) alice_login
                (request alice_db no_session)))
  = Some JNull
  /\ map last_login
       (users (store (snd (login ref_compare (clock 2000) alice_login
                                 (request alice_db no_session)))))
     = [Some 2000].
Proof. split; reflexivity. Qed.

Lemma login_missing_fields_rejected_before_lookup_witness :
  login ref_compare (clock 2000) (mkBody (Some "alice") None (Some ""))
        (request alice_db no_session)
  = (reply 400 (error "Username and password are required"),
     request alice_db no_session)
  /\ trace (snd (login ref_compare (clock 2000)
                       (mkBody (Some "alice") None (Some ""))
                       (request alice_db no_session))) = [].
Proof.
  apply (login_missing_fields_rejected_before_lookup ref_compare).
  right. reflexivity.
Defined.

Lemma profile_lookup_witness :
  fst (profile (clock 3000) (request alice_db alice_session))
  = reply 200
      (JObj [("user",
              JObj [("id", JNum 1);
                    ("username", JStr "alice");
                    ("email", JStr "alice@x.com");
                    ("created_at", JDate 1000);
                    ("last_login", JNull);
                    ("session_duration", JNum 2)]);
             ("stats", JObj [("total_users", JNum 1)])])
  /\ status (fst (profile (clock 3000) (request alice_db alice_session))) = 200
  /\ store (snd (profile (clock 3000) (request alice_db alice_session)))
     = alice_db.
Proof.
  apply (proj2 (proj2 (profile_lookup (clock 3000) alice_db alice_session)
                  1 eq_refl ltac:(discriminate) eq_refl) alice_row).
  - repeat constructor. intros [].
  - left. reflexivity.
  - reflexivity.
  - reflexivity.
Defined.

Example profile_counts_inactive_accounts :
  let d := mkDb [alice_row;
                 mkUser 2 "bob" "bob@x.com" "$2b$hunter22" 1 1 None false] 3 in
  field "stats" (payload (fst (profile (clock 3000) (request d alice_session))))
  = Some (JObj [("total_users", JNum 2)])
  /\ status (fst (profile (clock 3000)
                    (request d (mkSession (Some 2) (Some "bob") None)))) = 404
  /\ status (fst (profile (clock 3000) (request d no_session))) = 401.
Proof. repeat split. Qed.

Lemma stored_identities_are_lowercase_witness :
  lowercase_inv
    (store (snd (serve ref_hash ref_compare (clock 1000)
                       (PostRegister alice_body)
                       (request empty_db no_session)))).
Proof.
  apply (stored_identities_are_lowercase ref_hash ref_compare (clock 2000)
           PostLogout alice_body
           (store (snd (serve ref_hash ref_compare (clock 1000)
                              (PostRegister alice_body)
                              (request empty_db no_session))))
           no_session).
  apply reachable_serve. apply reachable_empty.
Defined.

Lemma concurrent_registrations_one_winner_witness :
  let final := run ref_hash [true; false; true; false; true; false]
                   (mkSystem empty_db (arrive (clock 1000) alice_body)
                                      (arrive (clock 1001) alice_again)) in
  exists (rA rB : response) (u : user),
    outcome (first final) = Some rA
    /\ outcome (second final) = Some rB
    /\ ((status rA = 201 /\ status rB = 400
         /\ (rB = username_taken \/ rB = username_or_email_exists))
        \/ (status rB = 201 /\ status rA = 400
            /\ (rA = username_taken \/ rA = username_or_email_exists)))
    /\ users (shared final) = (users empty_db ++ [u])%list
    /\ username u = Js.toLowerCase (Js.text (body_username alice_body)).
Proof.
  apply (proj2 (concurrent_registrations_one_winner ref_hash
                  (clock 1000) alice_body (clock 1001) alice_again empty_db
                  [true; false; true; false; true; false])).
  - exact ref_hasher_fits.
  - repeat split; try reflexivity; try (intro; reflexivity);
      try (simpl; lia); constructor.
  - split; simpl; lia.
Defined.

(** C5, counterexample.  Two registrations of one username whose
    read-checks both run before either insert: the second is turned down
    by the insert, with a message that names no specific field. *)
Lemma concurrent_duplicate_gets_generic_message :
  let final := run ref_hash [true; false; true; false; true; false]
                   (mkSystem empty_db (arrive (clock 1000) alice_body)
                                      (arrive (clock 1001) alice_again)) in
  outcome (first final) = Some (registered alice_row)
  /\ outcome (second final)
     = Some (reply 400 (error "Username or email already exists"))
  /\ c_trace (second final)
     = [Query (SelectUserByUsernameOrEmail "alice" "other@x.com");
        Hash "secret2";
        Query (InsertUser "alice" "other@x.com" "$2b$secret2")]
  /\ forall fld : string,
       names_field fld (reply 400 (error "Username or email already exists"))
       = false.
Proof.
  repeat split. intro fld. unfold names_field.
  change (error_of (reply 400 (error "Username or email already exists")))
    with (Some "Username or email already exists").
  destruct (String.eqb fld "username"); [reflexivity|].
  destruct (String.eqb fld "email"); reflexivity.
Qed.

(** The other side of C5: the second request starts after the first has
    finished, and is turned down by its read-check, naming the field. *)
Example late_duplicate_is_told_the_field :
  let final := run ref_hash [true; true; true; false; false; false]
                   (mkSystem empty_db (arrive (clock 1000) alice_body)
                                      (arrive (clock 1001) alice_again)) in
  outcome (first final) = Some (registered alice_row)
  /\ outcome (second final)
     = Some (reply 400 (error "This username is already registered"))
  /\ c_trace (second final)
     = [Query (SelectUserByUsernameOrEmail "alice" "other@x.com")]
  /\ names_field "username"
       (reply 400 (error "This username is already registered")) = true.
Proof. repeat split. Qed.

Lemma duplicate_registration_message_witness :
  (exists (fld : string) (existing : user),
     In existing (users alice_db)
     /\ fst (register ref_hash (clock 2000) alice_again
                      (request alice_db no_session))
        = reply 400 (error ("This " ++ fld ++ " is already registered"))
     /\ store (snd (register ref_hash (clock 2000) alice_again
                             (request alice_db no_session))) = alice_db
     /\ ((fld = "username"
          /\ LOWER (username existing)
             = LOWER (Js.text (body_username alice_again)))
         \/ (fld = "email"
             /\ LOWER (email existing)
                = LOWER (Js.text (body_email alice_again))))
     /\ names_field fld (fst (register ref_hash (clock 2000) alice_again
                                       (request alice_db no_session))) = true)
  /\ (let final := run ref_hash [true; false; true; false; true; false]
                       (mkSystem empty_db (arrive (clock 1000) alice_body)
                                          (arrive (clock 1001) alice_again)) in
      (won (first final)
       /\ second final
          = mkClient (clock 1001)
              (Finished (reply 400 (error "Username or email already exists")))
              no_session
              [read_check alice_again; Hash "secret2";
               insert_of ref_hash (clock 1001) alice_again])
      \/ (won (second final)
          /\ first final
             = mkClient (clock 1000)
                 (Finished
                    (reply 400 (error "Username or email already exists")))
                 no_session
                 [read_check alice_body; Hash "secret1";
                  insert_of ref_hash (clock 1000) alice_body])).
Proof.
  destruct (duplicate_registration_message ref_hash (clock 2000)
              alice_again alice_db no_session
              (clock 1000) alice_body (clock 1001) alice_again empty_db
              [true; false; true; false; true; false])
    as (Sequential & Race & _).
  split.
  - apply Sequential.
    + repeat constructor.
    + reflexivity.
    + reflexivity.
    + exists alice_row. split; [left; reflexivity|left; reflexivity].
  - apply Race.
    + exact ref_hasher_fits.
    + repeat split; try reflexivity; try (intro; reflexivity);
        try (simpl; lia); constructor.
    + split; simpl; lia.
Defined.

(** The table compares stored values exactly: it is the lowercasing before
    the insert that makes uniqueness hold up to case. *)
Example insert_compares_exactly :
  fst (insert_user 2000 "Alice" "other@x.com" "$2b$secret2" alice_db)
  = inr [plain (mkUser 2 "Alice" "other@x.com" "$2b$secret2"
                       2000 2000 None true)]
  /\ fst (insert_user 2000 "alice" "other@x.com" "$2b$secret2" alice_db)
     = inl (PgError "23505").
Proof. split; reflexivity. Qed.

Example validation_order :
  map (fun b => error_of (fst (register ref_hash (clock 1000) b
                                        (request empty_db no_session))))
      [mkBody (Some "al") (Some "nonsense") None;
       mkBody (Some "al") (Some "nonsense") (Some "x");
       mkBody (Some "alice") (Some "nonsense") (Some "x");
       mkBody (Some "alice") (Some "alice@x.com") (Some "x")]
  = [Some "All fields are required";
     Some "Username must be between 3 and 50 characters";
     Some "Please provide a valid email address";
     Some "Password must be at least 6 characters long"].
Proof. reflexivity. Qed.

Lemma register_reports_first_failing_rule_witness :
  register ref_hash (clock 1000)
           (mkBody (Some "al") (Some "nonsense") (Some "x"))
           (request alice_db no_session)
  = (reply 400 (error "Username must be between 3 and 50 characters"),
     request alice_db no_session).
Proof.
  apply (register_reports_first_failing_rule ref_hash (clock 1000)
           (mkBody (Some "al") (Some "nonsense") (Some "x"))
           alice_db no_session); reflexivity.
Defined.

(* ================================================================== *)
(** ** Start-up, sessions and outcomes on sample data *)

Lemma findAvailablePort_fallback_in_use_witness :
  findAvailablePort every_port_in_use 3001 3000 = 3001
  /\ every_port_in_use (findAvailablePort every_port_in_use 3001 3000) = None.
Proof.
  apply (findAvailablePort_fallback_in_use every_port_in_use 3001 3000).
  - unfold valid_search. lia.
  - lia.
  - intros q _. reflexivity.
Defined.

Lemma findAvailablePort_first_free_witness :
  let listen := fun p => if p <? 3003 then None else Some p in
  let result := findAvailablePort listen 3001 3000 in
  (exists p, 3000 <= p <= Z.max 3000 (3001 + 10)
             /\ listen p = Some result
             /\ forall q, 3000 <= q < p -> listen q = None)
  \/ ((forall q, 3000 <= q <= Z.max 3000 (3001 + 10) -> listen q = None)
      /\ result = 3001).
Proof.
  apply (findAvailablePort_first_free
           (fun p => if p <? 3003 then None else Some p) 3001 3000).
  unfold valid_search. lia.
Defined.

Example findAvailablePort_skips_ports_in_use :
  findAvailablePort (fun p => if p <? 3003 then None else Some p) 3001 3000
  = 3003.
Proof. reflexivity. Qed.

Lemma initializeDatabase_keeps_accounts_witness :
  snd (initializeDatabase (second_call_fails 1000) None) = Some empty_db.
Proof.
  exact (proj1 (proj2 (proj2 (initializeDatabase_keeps_accounts
                                (second_call_fails 1000) None empty_db)))
               eq_refl).
Defined.

Lemma logout_ends_session_witness :
  fst (logout (clock 3000) (request alice_db alice_session))
  = reply 200 (JObj [("message", JStr "Logged out successfully")])
  /\ store (snd (logout (clock 3000) (request alice_db alice_session)))
     = alice_db
  /\ profile (clock 4000)
             (next (clock 3000) (clock 4000)
                   (snd (logout (clock 3000) (request alice_db alice_session))))
     = (reply 401 (error "Authentication required"),
        request alice_db no_session).
Proof.
  apply (logout_ends_session (clock 3000) (clock 4000) alice_db alice_session).
  reflexivity.
Defined.



Lemma register_session_only_on_success_witness :
  sess (snd (register ref_hash (clock 2000) alice_again
                      (request alice_db no_session))) = no_session
  /\ users (store (snd (register ref_hash (clock 2000) alice_again
                                 (request alice_db no_session))))
     = users alice_db.
Proof.
  apply (register_session_only_on_success ref_hash (clock 2000) alice_again
           alice_db no_session).
  discriminate.
Defined.

Lemma login_only_with_verified_password_witness :
  store (snd (login ref_compare (clock 2000) alice_wrong_password
                    (request alice_db no_session))) = alice_db
  /\ sess (snd (login ref_compare (clock 2000) alice_wrong_password
                      (request alice_db no_session))) = no_session.
Proof.
  apply (login_only_with_verified_password ref_compare (clock 2000)
           alice_wrong_password alice_db no_session).
  discriminate.
Defined.

Lemma inactive_account_cannot_login_witness :
  login ref_compare (clock 2000) bob_login (request bob_inactive_db no_session)
  = (reply 401 (error "Invalid username or password"),
     mkWorld bob_inactive_db no_session
             [Query (SelectActiveUserByUsername "bob")]).
Proof.
  apply (inactive_account_cannot_login ref_compare (clock 2000) bob_login
           bob_inactive_db no_session); try reflexivity.
  intros r [<-|[]] _. reflexivity.
Defined.

Lemma long_email_is_a_server_error_witness :
  fst (register ref_hash (clock 1000) long_email_body
                (request alice_db no_session))
  = reply 500 (error "Registration failed due to server error")
  /\ users (store (snd (register ref_hash (clock 1000) long_email_body
                                 (request alice_db no_session))))
     = users alice_db
  /\ sess (snd (register ref_hash (clock 1000) long_email_body
                         (request alice_db no_session))) = no_session.
Proof.
  apply (long_email_is_a_server_error ref_hash (clock 1000) long_email_body
           alice_db no_session); try reflexivity.
  vm_compute. repeat constructor.
Defined.

Lemma register_then_profile_witness :
  (fst (profile (clock 61499)
                (next (clock 1000) (clock 61499)
                      (snd (register ref_hash (clock 1000) alice_body
                                     (request empty_db no_session)))))
   = reply 200
       (JObj [("user",
               JObj [("id", JNum 1);
                     ("username", JStr "alice");
                     ("email", JStr "alice@x.com");
                     ("created_at", JDate 1000);
                     ("last_login", JNull);
                     ("session_duration", JNum 60)]);
              ("stats", JObj [("total_users", JNum 1)])])
   /\ 0 <= 60
   /\ 1000 * 60 - 500 <= 61499 - 1000 < 1000 * 60 + 500)
  /\ fst (profile (clock 86401001)
                  (next (clock 1000) (clock 86401001)
                        (snd (register ref_hash (clock 1000) alice_body
                                       (request empty_db no_session)))))
     = reply 401 (JObj [("error", JStr "Authentication required")]).
Proof.
  split.
  - apply (register_then_profile ref_hash ref_compare (clock 1000)
             (clock 61499) alice_body empty_db no_session
             (fst (register ref_hash (clock 1000) alice_body
                            (request empty_db no_session)))
             (snd (register ref_hash (clock 1000) alice_body
                            (request empty_db no_session)))).
    + apply reachable_empty.
    + reflexivity.
    + reflexivity.
    + reflexivity.
    + unfold maxAge. simpl. lia.
  - apply (register_then_profile ref_hash ref_compare (clock 1000)
             (clock 86401001) alice_body empty_db no_session
             (fst (register ref_hash (clock 1000) alice_body
                            (request empty_db no_session)))
             (snd (register ref_hash (clock 1000) alice_body
                            (request empty_db no_session)))).
    + apply reachable_empty.
    + reflexivity.
    + reflexivity.
    + reflexivity.
    + unfold maxAge. simpl. lia.
Defined.

Lemma login_then_profile_witness :
  let d := store (snd (serve ref_hash ref_compare (clock 1000)
                             (PostRegister alice_body)
                             (request empty_db no_session))) in
  let w := snd (login ref_compare (clock 2000) alice_login
                      (request d no_session)) in
  exists u : user,
    In u (users d)
    /\ user_field "id" (fst (login ref_compare (clock 2000) alice_login
                                   (request d no_session)))
       = Some (JNum (id u))
    /\ user_field "lastLogin" (fst (login ref_compare (clock 2000) alice_login
                                          (request d no_session)))
       = Some (json_date (last_login u))
    /\ status (fst (profile (clock 3000) (next (clock 2000) (clock 3000) w))) = 200
    /\ user_field "id" (fst (profile (clock 3000) (next (clock 2000) (clock 3000) w)))
       = Some (JNum (id u))
    /\ user_field "last_login" (fst (profile (clock 3000) (next (clock 2000) (clock 3000) w)))
       = Some (JDate 2000)
    /\ field "stats" (payload (fst (profile (clock 3000) (next (clock 2000) (clock 3000) w))))
       = Some (JObj [("total_users", JNum (Z.of_nat (List.length (users d))))]).
Proof.
  apply (login_then_profile ref_hash ref_compare (clock 2000) (clock 3000)
           alice_login _ no_session).
  - apply reachable_serve. apply reachable_empty.
  - reflexivity.
  - reflexivity.
  - reflexivity.
  - unfold maxAge. simpl. lia.
Defined.

Example accepted_and_refused_addresses :
  map (Js.test Js.emailRegex)
      ["first.last@mail.example.org"; "a@b.c"; "no-at-sign.example";
       "two@@x.org"; "a@b@c.org"; "with space@x.org"; "nodot@localhost";
       "trailing@dot."; "@x.org"]
  = [true; true; false; false; false; false; false; false; false].
Proof. reflexivity. Qed.

Lemma store_receives_only_the_hash_witness :
  exists b : body,
    PostRegister alice_body = PostRegister b
    /\ "alice" = Js.toLowerCase (Js.text (body_username b))
    /\ "alice@x.com" = Js.toLowerCase (Js.text (body_email b))
    /\ "$2b$secret1"
       = ref_hash (Js.text (body_password b)) (saltRounds (clock 1000))
                  (salt (clock 1000))
    /\ (BCRYPT_ROUNDS (clock 1000) = None -> saltRounds (clock 1000) = 12).
Proof.
  apply (store_receives_only_the_hash ref_hash ref_compare (clock 1000)
           (PostRegister alice_body) empty_db no_session).
  right. right. left. reflexivity.
Defined.

